(** * Class-Availability-Tracker: section parsing, openness classification
      and notification de-duplication

    A shallow embedding of [src/parser.py], [src/notifier.py],
    [src/runner.py], [main] of [src/checker_playwright.py] and the
    commands of [src/bot.py], followed by the properties of the written
    specification that concern them and by further properties of the
    code.

    Conventions of the embedding.
    - Python values that flow through dictionaries ([info], the entries of
      [data/notified.json]) are values of [pyval]: [None], booleans,
      integers and strings.  Floats, lists and nested objects never occur
      in what the program itself writes and are left out.
    - A call that can raise returns an [outcome]; [Raise e] is an
      exception that leaves the function.
    - Text is a [string] whose characters are read as the code points
      U+0000..U+00FF. *)

From Stdlib Require Import ZArith String Ascii List Bool Lia DecimalString.
From stdpp Require Import base option gmap strings.

Local Open Scope Z_scope.
Local Open Scope string_scope.

(** ** Python values and exceptions *)

Module Py.

Inductive exn :=
  TypeError | AttributeError | ValueError | RuntimeError | ConnectionError.

Inductive outcome (A : Type) :=
| Ret (a : A)
| Raise (e : exn).
Arguments Ret {A} a.
Arguments Raise {A} e.

(** Sequencing: an exception raised by the first computation skips the
    rest.  Written [x ← m; k] below. *)
#[export] Instance outcome_ret : MRet outcome := fun A a => Ret a.
#[export] Instance outcome_bind : MBind outcome := fun A B k m =>
  match m with
  | Ret a => k a
  | Raise e => Raise e
  end.

Inductive pyval :=
| PNone
| PBool (b : bool)
| PInt (z : Z)
| PStr (s : string).

(** [bool(v)]: the truth value Python gives to [v]. *)
Definition truthy (v : pyval) : bool :=
  match v with
  | PNone => false
  | PBool b => b
  | PInt z => negb (z =? 0)%Z
  | PStr s => negb (String.eqb s EmptyString)
  end.

Definition is_none (v : pyval) : bool :=
  match v with PNone => true | _ => false end.

(** The integer a boolean or an integer stands for in a comparison. *)
Definition as_number (v : pyval) : option Z :=
  match v with
  | PInt z => Some z
  | PBool b => Some (if b then 1 else 0)%Z
  | _ => None
  end.

(** [a == b] *)
Definition py_eq (a b : pyval) : bool :=
  match a, b with
  | PNone, PNone => true
  | PStr s, PStr t => String.eqb s t
  | _, _ =>
      match as_number a, as_number b with
      | Some x, Some y => (x =? y)%Z
      | _, _ => false
      end
  end.

(** [a < b]: defined between numbers and between strings, a [TypeError]
    otherwise. *)
Definition py_lt (a b : pyval) : outcome bool :=
  match a, b with
  | PStr s, PStr t => Ret (String.ltb s t)
  | _, _ =>
      match as_number a, as_number b with
      | Some x, Some y => Ret (x <? y)%Z
      | _, _ => Raise TypeError
      end
  end.

(** [a > b] *)
Definition py_gt (a b : pyval) : outcome bool := py_lt b a.

(** [d.get(k)] on a dictionary read from JSON. *)
Definition get (d : gmap string pyval) (k : string) : pyval :=
  default PNone (d !! k).

End Py.

Import Py.

(** ** Strings: [str.lower()], [tok in s], [int(digits)] *)

Module Str.

Definition code (c : ascii) : N := N_of_ascii c.

(** [c.lower()] for a code point below U+0100: the letters A-Z and the
    accented capitals U+00C0..U+00DE (less the multiplication sign) move
    up by 32. *)
Definition lower_char (c : ascii) : ascii :=
  let n := code c in
  if ((65 <=? n) && (n <=? 90) ||
      (192 <=? n) && (n <=? 222) && negb (n =? 215))%N
  then ascii_of_N (n + 32) else c.

Fixpoint lower (s : string) : string :=
  match s with
  | EmptyString => EmptyString
  | String c s' => String (lower_char c) (lower s')
  end.

(** [tok in s]: [tok] occurs in [s] as a contiguous substring. *)
Fixpoint contains (tok s : string) : bool :=
  String.prefix tok s ||
  match s with
  | EmptyString => false
  | String _ s' => contains tok s'
  end.

(** [any(token in s for token in toks)] *)
Definition any_in (toks : list string) (s : string) : bool :=
  existsb (fun tok => contains tok s) toks.

Definition is_digit (c : ascii) : bool :=
  ((48 <=? code c) && (code c <=? 57))%N.

(** Whitespace as [\s] and [str.isspace] see it below U+0100. *)
Definition is_space (c : ascii) : bool :=
  let n := code c in
  ((9 <=? n) && (n <=? 13) || (28 <=? n) && (n <=? 32) ||
   (n =? 133) || (n =? 160))%N.

(** [int(s)] for a string of decimal digits (of a length Python agrees
    to convert). *)
Definition int_acc (acc : Z) (c : ascii) : Z :=
  10 * acc + (Z.of_N (code c) - 48).

Fixpoint int_from (acc : Z) (s : string) : Z :=
  match s with
  | EmptyString => acc
  | String c s' => int_from (int_acc acc c) s'
  end.

Definition int (s : string) : Z := int_from 0 s.

End Str.

(** ** The fragment of Python's [re] that the three patterns use

    Backtracking matching in continuation-passing style: alternatives are
    tried in the order [re] tries them (greedy repetition longest first,
    lazy repetition shortest first, left branch of [|] first), and
    [search] returns the groups of the leftmost match. *)

Module Re.

Inductive re :=
| Eps
| Chr (p : ascii -> bool)                      (* one character in a class *)
| Seq (r1 r2 : re)
| Alt (r1 r2 : re)
| Rep (greedy : bool) (least : nat) (p : ascii -> bool)
                                               (* p* p+ (greedy), p*? (lazy) *)
| Opt (r : re)                                 (* r? *)
| Grp (i : nat) (r : re).                      (* capturing group number i *)

(** Where a repetition may stop: only once [least] more characters are
    no longer owed. *)
Definition stop_here {R} (least : nat) (s : string)
    (k : string -> option R) : option R :=
  match least with
  | O => k s
  | S _ => None
  end.

Fixpoint rep_greedy {R} (p : ascii -> bool) (least : nat) (s : string)
    (k : string -> option R) : option R :=
  match s with
  | String c s' =>
      if p c then
        match rep_greedy p (Nat.pred least) s' k with
        | Some r => Some r
        | None => stop_here least s k
        end
      else stop_here least s k
  | EmptyString => stop_here least s k
  end.

Fixpoint rep_lazy {R} (p : ascii -> bool) (least : nat) (s : string)
    (k : string -> option R) {struct s} : option R :=
  match least with
  | O =>
      match k s with
      | Some r => Some r
      | None =>
          match s with
          | String c s' => if p c then rep_lazy p O s' k else None
          | EmptyString => None
          end
      end
  | S n =>
      match s with
      | String c s' => if p c then rep_lazy p n s' k else None
      | EmptyString => None
      end
  end.

(** The characters of [s] consumed to reach its suffix [rest]. *)
Definition consumed (s rest : string) : string :=
  String.substring 0 (String.length s - String.length rest) s.

Fixpoint run {R} (r : re) (s : string) (caps : gmap nat string)
    (k : string -> gmap nat string -> option R) : option R :=
  match r with
  | Eps => k s caps
  | Chr p =>
      match s with
      | String c s' => if p c then k s' caps else None
      | EmptyString => None
      end
  | Seq r1 r2 => run r1 s caps (fun s1 caps1 => run r2 s1 caps1 k)
  | Alt r1 r2 =>
      match run r1 s caps k with
      | Some x => Some x
      | None => run r2 s caps k
      end
  | Rep true least p => rep_greedy p least s (fun s' => k s' caps)
  | Rep false least p => rep_lazy p least s (fun s' => k s' caps)
  | Opt r1 =>
      match run r1 s caps k with
      | Some x => Some x
      | None => k s caps
      end
  | Grp i r1 =>
      run r1 s caps (fun s1 caps1 => k s1 (<[i := consumed s s1]> caps1))
  end.

(** [pattern.search(s)]: the groups of the first position that matches. *)
Fixpoint search (r : re) (s : string) : option (gmap nat string) :=
  match run r s ∅ (fun _ caps => Some caps) with
  | Some caps => Some caps
  | None =>
      match s with
      | String _ s' => search r s'
      | EmptyString => None
      end
  end.

(** [m.group(i)] of a group that took part in the match. *)
Definition group (m : gmap nat string) (i : nat) : string :=
  default EmptyString (m !! i).

(** What it means for a whole string [w] to match a pattern, apart from
    any search order: the reading of the pattern as a set of strings. *)
Fixpoint all_chars (p : ascii -> bool) (w : string) : bool :=
  match w with
  | EmptyString => true
  | String c w' => p c && all_chars p w'
  end.

Fixpoint matches (r : re) (w : string) : Prop :=
  match r with
  | Eps => w = EmptyString
  | Chr p => exists c, w = String c EmptyString /\ p c = true
  | Seq r1 r2 => exists w1 w2, w = w1 +:+ w2 /\ matches r1 w1 /\ matches r2 w2
  | Alt r1 r2 => matches r1 w \/ matches r2 w
  | Rep _ least p => all_chars p w = true /\ (least <= String.length w)%nat
  | Opt r1 => w = EmptyString \/ matches r1 w
  | Grp _ r1 => matches r1 w
  end.

(** The same reading with the groups: matching [w] takes the groups
    from [caps] to [caps']. *)
Fixpoint matches_with (r : re) (w : string) (caps caps' : gmap nat string)
    : Prop :=
  match r with
  | Eps => w = EmptyString /\ caps' = caps
  | Chr p => (exists c, w = String c EmptyString /\ p c = true) /\ caps' = caps
  | Seq r1 r2 =>
      exists w1 w2 caps1, w = w1 +:+ w2 /\
        matches_with r1 w1 caps caps1 /\ matches_with r2 w2 caps1 caps'
  | Alt r1 r2 => matches_with r1 w caps caps' \/ matches_with r2 w caps caps'
  | Rep _ least p =>
      all_chars p w = true /\ (least <= String.length w)%nat /\ caps' = caps
  | Opt r1 => (w = EmptyString /\ caps' = caps) \/ matches_with r1 w caps caps'
  | Grp i r1 =>
      exists caps1, matches_with r1 w caps caps1 /\ caps' = <[i := w]> caps1
  end.

(** The pattern matches somewhere in [s]. *)
Definition occurs (r : re) (s : string) : Prop :=
  exists pre w post, s = pre +:+ w +:+ post /\ matches r w.

(** What a repetition that succeeds has done: read some [w] of at least
    [least] characters of the class, and handed the rest on. *)
Definition rep_result {R} (p : ascii -> bool) (least : nat) (s : string)
    (k : string -> option R) (x : R) : Prop :=
  exists w rest, s = w +:+ rest /\ all_chars p w = true /\
    (least <= String.length w)%nat /\ k rest = Some x.

(** A literal character, and one under [re.IGNORECASE]. *)
Definition chr (c : ascii) : re := Chr (Ascii.eqb c).
Definition chr_i (c : ascii) : re :=
  Chr (fun x => Ascii.eqb (Str.lower_char x) (Str.lower_char c)).

Fixpoint lit_i (w : string) : re :=
  match w with
  | EmptyString => Eps
  | String c w' => Seq (chr_i c) (lit_i w')
  end.

Definition digits : re := Rep true 1 Str.is_digit.                (* \d+ *)
Definition spaces0 : re := Rep true 0 Str.is_space.               (* \s* *)
Definition spaces1 : re := Rep true 1 Str.is_space.               (* \s+ *)
Definition colon_space (c : ascii) : bool :=
  Ascii.eqb c ":" || Str.is_space c.                              (* [:\s] *)
Definition dot (c : ascii) : bool := negb (Ascii.eqb c "010").    (* . *)

End Re.

(** ** [src/parser.py] *)

Module Parser.

(** [(\d+)\s*/\s*(\d+)] *)
Definition NUMERIC_SLASH_RE : Re.re :=
  Re.Seq (Re.Grp 1 Re.digits)
    (Re.Seq Re.spaces0
       (Re.Seq (Re.chr "/")
          (Re.Seq Re.spaces0 (Re.Grp 2 Re.digits)))).

(** [Enrl[:\s]*?(\d+).*?Cap[:\s]*?(\d+)], ignoring case *)
Definition ENRL_CAP_RE : Re.re :=
  Re.Seq (Re.lit_i "Enrl")
    (Re.Seq (Re.Rep false 0 Re.colon_space)
       (Re.Seq (Re.Grp 1 Re.digits)
          (Re.Seq (Re.Rep false 0 Re.dot)
             (Re.Seq (Re.lit_i "Cap")
                (Re.Seq (Re.Rep false 0 Re.colon_space)
                   (Re.Grp 2 Re.digits)))))).

(** [(\d+)\s+(?:seats?|seats?\s+available)], ignoring case *)
Definition SEATS_AVAILABLE_RE : Re.re :=
  let seats := Re.Seq (Re.lit_i "seat") (Re.Opt (Re.chr_i "s")) in
  Re.Seq (Re.Grp 1 Re.digits)
    (Re.Seq Re.spaces1
       (Re.Alt seats
          (Re.Seq seats (Re.Seq Re.spaces1 (Re.lit_i "available"))))).

(** What [parse_row_element] reads off a [<tr>] element through
    BeautifulSoup; each text is already stripped by the library. *)
Record Row := {
  get_text : string;                (* tr.get_text(" ", strip=True) *)
  stopbubble : option string;       (* tr.select_one("td a.stopbubble") *)
  first_anchor : option string;     (* tr.select_one("a") *)
  status_span : option string       (* span.section-open / -closed / -waitlist *)
}.

(** The dictionary a row is parsed into. *)
Record Info := {
  label : pyval;
  enrolled : pyval;
  capacity : pyval;
  seats_available : pyval;
  status_text : pyval;
  raw : string
}.

(** The two layouts of the enrollment numbers, read off the patterns: in
    [text] stand the digits [d1], then [d2], as
    "<d1> / <d2>", white space around the slash optional, or as
    "Enrl <d1> .. Cap <d2>", in any case of the letters, colons and white
    space allowed before each number, anything but a line break between
    the first number and "Cap". *)
Definition is_number (d : string) : Prop :=
  d <> EmptyString /\ Re.all_chars Str.is_digit d = true.

Definition slash_form (text d1 d2 : string) : Prop :=
  exists pre ws1 ws2 post,
    text = pre +:+ (d1 +:+ ws1 +:+ "/" +:+ ws2 +:+ d2) +:+ post /\
    is_number d1 /\ is_number d2 /\
    Re.all_chars Str.is_space ws1 = true /\
    Re.all_chars Str.is_space ws2 = true.

Definition labelled_form (text d1 d2 : string) : Prop :=
  exists pre enrl sep1 mid cap sep2 post,
    text = pre +:+ (enrl +:+ sep1 +:+ d1 +:+ mid +:+ cap +:+ sep2 +:+ d2)
               +:+ post /\
    Str.lower enrl = "enrl" /\ Str.lower cap = "cap" /\
    is_number d1 /\ is_number d2 /\
    Re.all_chars Re.colon_space sep1 = true /\
    Re.all_chars Re.dot mid = true /\
    Re.all_chars Re.colon_space sep2 = true.

Definition opt_str (o : option string) : pyval :=
  match o with
  | Some s => PStr s
  | None => PNone
  end.

(** The [enrolled, capacity] pair: the slash form if the row text has
    one, else the "Enrl .. Cap .." form, else nothing. *)
Definition enrolled_capacity (text : string) : pyval * pyval :=
  match Re.search NUMERIC_SLASH_RE text with
  | Some slash_match =>
      (PInt (Str.int (Re.group slash_match 1)),
       PInt (Str.int (Re.group slash_match 2)))
  | None =>
      match Re.search ENRL_CAP_RE text with
      | Some enrl_cap_match =>
          (PInt (Str.int (Re.group enrl_cap_match 1)),
           PInt (Str.int (Re.group enrl_cap_match 2)))
      | None => (PNone, PNone)
      end
  end.

(** The status word found in the lower-cased row text. *)
Definition status_from_text (text : string) : pyval :=
  let t := Str.lower text in
  if Str.contains "full" t then PStr "full"
  else if Str.contains "open" t || Str.contains "available" t ||
          Str.contains "seats available" t || Str.contains "seat available" t
       then PStr "open"
  else if Str.contains "waitlist" t || Str.contains "wait list" t ||
          Str.contains "wl" t
       then PStr "waitlist"
  else if Str.contains "closed" t then PStr "closed"
  else PNone.

Definition parse_row_element (tr : Row) : Info :=
  let text := get_text tr in
  let anchor_tag :=
    match stopbubble tr with
    | Some a => Some a
    | None => first_anchor tr
    end in
  let label := opt_str anchor_tag in
  let status_text := opt_str (Str.lower <$> status_span tr) in
  let '(enrolled, capacity) := enrolled_capacity text in
  let seats_available :=
    match Re.search SEATS_AVAILABLE_RE text with
    | Some seats_match => PInt (Str.int (Re.group seats_match 1))
    | None => PNone
    end in
  let status_text :=
    if negb (truthy status_text) then status_from_text text
    else status_text in
  {| label := label; enrolled := enrolled; capacity := capacity;
     seats_available := seats_available; status_text := status_text;
     raw := text |}.

(** The shape the module's docstring gives the dictionary: [label] and
    [status_text] a string or [None], the three counts an integer or
    [None]. *)
Definition str_or_none (v : pyval) : bool :=
  match v with PStr _ | PNone => true | _ => false end.
Definition int_or_none (v : pyval) : bool :=
  match v with PInt _ | PNone => true | _ => false end.

Definition well_formed (info : Info) : bool :=
  str_or_none (label info) && int_or_none (enrolled info) &&
  int_or_none (capacity info) && int_or_none (seats_available info) &&
  str_or_none (status_text info).

(** [parse_results_fragment], from the rows [soup.select] returned. *)
Definition parse_results_fragment (rows : list Row) : list Info :=
  map parse_row_element rows.

(** [(v or '').lower()], the empty string standing in for a falsy value *)
Definition or_empty_lower (v : pyval) : outcome string :=
  match (if truthy v then v else PStr EmptyString) with
  | PStr s => Ret (Str.lower s)
  | _ => Raise AttributeError
  end.

Definition open_tokens : list string := ["open"; "available"; "seat"].
Definition closed_tokens : list string :=
  ["full"; "closed"; "waitlist"; "wait list"; "wl"].

Definition is_section_open (info : Info) : outcome bool :=
  (* 1) seats available explicit *)
  let seats_available := seats_available info in
  if negb (is_none seats_available) then py_gt seats_available (PInt 0)
  else
    (* 2) numeric enrolled/capacity *)
    let en := enrolled info in
    let cap := capacity info in
    if negb (is_none en) && negb (is_none cap) then py_lt en cap
    else
      (* 3) textual status *)
      status ← or_empty_lower (status_text info);
      if truthy (PStr status) then
        if Str.any_in open_tokens status then Ret true
        else if Str.any_in closed_tokens status then Ret false
        else Ret false   (* 4) fallback *)
      else Ret false.    (* 4) fallback *)

End Parser.

(** ** [datetime] values

    A [datetime] is a count of microseconds together with the fact of
    carrying a time zone or not.  For an aware value the count is that of
    the instant on the UTC time line; for a naive one it is the reading of
    the wall clock.  [timedelta]s are counts of microseconds. *)

Module Clock.

Record datetime := { micros : Z; aware : bool }.

(** [datetime.utcnow()] is naive, [datetime.now(timezone.utc)] is aware;
    [t] is the reading of the UTC clock at the call. *)
Definition utcnow (t : Z) : datetime := {| micros := t; aware := false |}.
Definition now_utc (t : Z) : datetime := {| micros := t; aware := true |}.

(** [a - b]: Python refuses to subtract a naive and an aware value. *)
Definition sub (a b : datetime) : outcome Z :=
  if Bool.eqb (aware a) (aware b) then Ret (micros a - micros b)
  else Raise TypeError.

Definition seconds (n : Z) : Z := n * 1000000.

End Clock.

Import Clock.

(** The contents of [data/notified.json]: one JSON object per label. *)
Abbreviation Entry := (gmap string pyval).
Abbreviation State := (gmap string (gmap string pyval)).

(** The two library functions on time stamps stay parameters:
    [datetime.fromisoformat], [None] standing for the [ValueError] of an
    unparsable string, and [datetime.isoformat].  All that is used of
    them is that the empty string is not a time stamp. *)
Class IsoFormat := {
  fromisoformat : string -> option datetime;
  isoformat : datetime -> string;
  fromisoformat_empty : fromisoformat EmptyString = None
}.

(** [datetime.fromisoformat(v)] under [try: ... except Exception]: a value
    that is not a string raises [TypeError], caught with the rest. *)
Definition try_fromisoformat `{IsoFormat} (v : pyval) : option datetime :=
  match v with
  | PStr s => fromisoformat s
  | _ => None
  end.

(** An HTTP exchange made through [requests]: a response with its status
    code, or an exception of the library. *)
Inductive response :=
| Http (status_code : Z)
| Failed.

(** ** [src/notifier.py] *)

Module Notifier.
Section WithIso.
Context `{IsoFormat}.

Definition RENOTIFY_AFTER : Z := seconds 3600.   (* timedelta(hours=1) *)

Definition _post_to_discord (WEBHOOK_URL : pyval) (resp : response)
    : outcome bool :=
  if negb (truthy WEBHOOK_URL) then Raise RuntimeError
  else
    match resp with
    | Failed => Raise ConnectionError
    | Http status_code => Ret ((status_code =? 200)%Z || (status_code =? 204)%Z)
    end.

(** [notify_open] builds the embed from [section_info] and posts it; its
    result is that of the post. *)
Definition notify_open (WEBHOOK_URL : pyval) (resp : response)
    (section_info : Parser.Info) : outcome bool :=
  _post_to_discord WEBHOOK_URL resp.

Definition status_word (is_open : bool) : pyval :=
  PStr (if is_open then "open" else "closed").

(** [should_notify(label, is_open)], with the state [_load_state()] reads
    and the clock reading [now] made explicit. *)
Definition should_notify (now : Z) (state : State) (label : string)
    (is_open : bool) : outcome bool :=
  match state !! label with
  | None => Ret true
  | Some entry =>
      if decide (entry = ∅) then Ret true
      else
        let last_status := get entry "last_status" in
        let last_notified_iso := get entry "last_notified" in
        match try_fromisoformat last_notified_iso with
        | None => Ret true
        | Some last_notified =>
            if negb (py_eq last_status (status_word is_open)) then Ret true
            else if is_open then
              d ← sub (utcnow now) last_notified;
              if (RENOTIFY_AFTER <? d)%Z then Ret true else Ret false
            else Ret false
        end
  end.

Definition mark_notified (now : Z) (state : State) (label : string)
    (is_open : bool) : State :=
  <[label := {[ "last_status" := status_word is_open;
                "last_notified" := PStr (isoformat (utcnow now)) ]}]> state.

End WithIso.
End Notifier.

(** ** [src/runner.py] *)

Module Runner.
Section WithIso.
Context `{IsoFormat}.

(** [should_notify(label, info, notified_state, backoff_seconds)], with
    the clock reading [now] made explicit.  [elapsed] is kept as a count
    of microseconds, so [elapsed >= backoff_seconds] compares it with the
    backoff in microseconds.  The code compares the float
    [total_seconds()], the count of microseconds divided by 10^6 and
    rounded to a double, with the backoff; the two comparisons agree for
    the backoffs of [exact_backoff] below, the default 3600 of [main]
    among them, and the properties that depend on the comparison are
    stated for these. *)
Definition should_notify (now : Z) (label : string) (info : Parser.Info)
    (notified_state : State) (backoff_seconds : Z) : outcome bool :=
  match notified_state !! label with
  | None => Ret true
  | Some entry =>
      let last := get entry "last_notified" in
      if negb (truthy last) then Ret true
      else
        match try_fromisoformat last with
        | None => Ret true
        | Some last_dt =>
            elapsed ← sub (now_utc now) last_dt;
            if (seconds backoff_seconds <=? elapsed)%Z then
              let prev_status := get entry "last_status" in
              if negb (py_eq (Parser.status_text info) prev_status)
              then Ret true
              else
                dropped ←
                  (if negb (is_none (Parser.enrolled info)) &&
                      negb (is_none (get entry "enrolled"))
                   then py_lt (Parser.enrolled info) (get entry "enrolled")
                   else Ret false);
                if (dropped : bool) then Ret true else Ret false
            else Ret false
        end
  end.

(** The backoffs at which comparing microseconds is what the code does.
    Up to 2^34 seconds the doubles next to a whole number [b] of seconds
    are so close that a time one microsecond short of [b] rounds to a
    double below [b]; from 2^34 + 1 seconds on it rounds to [b] itself,
    and the code takes the backoff to have passed one microsecond
    early. *)
Definition exact_backoff (backoff_seconds : Z) : Prop :=
  (0 <= backoff_seconds < 2 ^ 34)%Z.

(** The enrollment test of [should_notify] finds no decrease: a count is
    missing on one side, or the current one is not below the stored one. *)
Definition no_enrollment_decrease (info : Parser.Info) (entry : Entry)
    : Prop :=
  Parser.enrolled info = PNone \/ get entry "enrolled" = PNone \/
  exists e e0 : Z, Parser.enrolled info = PInt e /\
    get entry "enrolled" = PInt e0 /\ (e0 <= e)%Z.

Definition mark_notified (now : Z) (label : string) (info : Parser.Info)
    (notified_state : State) : State :=
  let entry : Entry :=
    {[ "last_notified" := PStr (isoformat (now_utc now));
       "last_status" := Parser.status_text info;
       "enrolled" := Parser.enrolled info ]} in
  <[label := entry]> notified_state.

(** What Discord answers for one subscriber: to the request that opens
    the DM channel, what [r.json()] and [dm.get("id")] make of the body
    of that answer, and to the message itself.  [channel_id] is the
    value under ["id"] ([None] when the key is missing) of a body that
    is a JSON object, [Raise ValueError] for a body that is not JSON
    ([r.json()] raises) and [Raise AttributeError] for a JSON body that
    is not an object ([dm.get] raises).  The body is read only from an
    answer with status 200. *)
Record dm_exchange := {
  open_dm : response;
  channel_id : outcome pyval;
  send_dm : response
}.

(** [notify_users]: a refused request is printed and the loop goes on;
    the function returns [None] whatever the status codes were, and
    raises what a request or the decoding of the channel answer
    raises. *)
Fixpoint notify_users (exchanges : list dm_exchange) : outcome unit :=
  match exchanges with
  | [] => Ret tt
  | x :: rest =>
      match open_dm x with
      | Failed => Raise ConnectionError
      | Http code =>
          if negb (code =? 200)%Z then notify_users rest
          else
            match channel_id x with
            | Raise e => Raise e
            | Ret id =>
                if negb (truthy id) then notify_users rest
                else
                  match send_dm x with
                  | Failed => Raise ConnectionError
                  | Http _ => notify_users rest
                  end
            end
      end
  end.

(** What one turn of the loop of [main] meets outside the program: the
    parsed rows of the page, the clock at the decision and at the
    recording, and Discord's answers. *)
Record cycle := {
  rows : list Parser.Info;
  now_decide : Z;
  now_mark : Z;
  exchanges : list dm_exchange
}.

(** The body of the loop of [main] for one label.  Every exception is
    caught by the [try] around it and leaves [notified] as it was. *)
Definition check_label (label : string) (c : cycle) (notified : State)
    : State :=
  match find (fun r => py_eq (Parser.label r) (PStr label)) (rows c) with
  | None => notified
  | Some info =>
      let body : outcome State :=
        is_open ← Parser.is_section_open info;
        go ← should_notify (now_decide c) label info notified 3600;
        if (go : bool) then
          _ ← notify_users (exchanges c);
          Ret (mark_notified (now_mark c) label info notified)
        else Ret notified in
      match body with
      | Ret notified' => notified'
      | Raise _ => notified
      end
  end.

(** The loop of [main] over the subscribed labels. *)
Fixpoint main (labels : list (string * cycle)) (notified : State)
    : State :=
  match labels with
  | [] => notified
  | (label, c) :: rest => main rest (check_label label c notified)
  end.

End WithIso.
End Runner.

(** ** [src/checker_playwright.py]: [main] from the matching row on *)

Module Checker.
Section WithIso.
Context `{IsoFormat}.

(** [match.get("label") or "unknown"]; the matching row has a string
    for label, anything else would not do as a key of the state here. *)
Definition label_or_unknown (v : pyval) : outcome string :=
  match (if truthy v then v else PStr "unknown") with
  | PStr s => Ret s
  | _ => Raise TypeError
  end.

(** The state file after [main] has dealt with the matching row
    [match]: Discord's answer to the webhook post is [resp].  The
    exceptions of the notifier are caught and printed. *)
Definition main (WEBHOOK_URL : pyval) (resp : response)
    (now_decide now_mark : Z) (match_ : Parser.Info) (state : State)
    : State :=
  match Parser.is_section_open match_, label_or_unknown (Parser.label match_) with
  | Ret open_bool, Ret label =>
      if open_bool then
        match Notifier.should_notify now_decide state label true with
        | Ret true =>
            match Notifier.notify_open WEBHOOK_URL resp match_ with
            | Ret true => Notifier.mark_notified now_mark state label true
            | _ => state
            end
        | _ => state
        end
      else Notifier.mark_notified now_mark state label false
  | _, _ => state
  end.

End WithIso.
End Checker.

(** ** Sample data

    The section of the specification's examples, a few time stamps, and
    the states and cycles the examples below run on. *)

Module Samples.

Definition T0 : Z := 1736942400000000.        (* 2025-01-15 12:00:00 UTC *)
Definition minutes (n : Z) : Z := seconds (60 * n).

Definition stamps : list (string * datetime) :=
  [ ("2025-01-15T12:00:00+00:00", now_utc T0);
    ("2025-01-15T12:00:00", utcnow T0);
    ("2025-01-15T12:05:00+00:00", now_utc (T0 + minutes 5));
    ("2025-01-15T12:05:00", utcnow (T0 + minutes 5));
    ("2025-01-15T13:01:00+00:00", now_utc (T0 + minutes 61));
    ("2025-01-15T13:01:00", utcnow (T0 + minutes 61)) ].

Definition datetime_eqb (a b : datetime) : bool :=
  (micros a =? micros b)%Z && Bool.eqb (aware a) (aware b).

(** The two library functions, cut down to the time stamps above. *)
Definition sample_fromisoformat (s : string) : option datetime :=
  snd <$> find (fun p => String.eqb (fst p) s) stamps.

Definition sample_isoformat (d : datetime) : string :=
  default "1970-01-01T00:00:00"
    (fst <$> find (fun p => datetime_eqb (snd p) d) stamps).

#[export] Instance sample_iso : IsoFormat := {|
  fromisoformat := sample_fromisoformat;
  isoformat := sample_isoformat;
  fromisoformat_empty := eq_refl
|}.

Definition cs4349 : string := "CS 4349.003".

(** The row "CS 4349.003 12 / 30 Open", without a status marker. *)
Definition row_open : Parser.Row := {|
  Parser.get_text := "CS 4349.003 12 / 30 Open";
  Parser.stopbubble := Some cs4349;
  Parser.first_anchor := Some cs4349;
  Parser.status_span := None
|}.

(** The row "CS 4349.004 0 seats available Full". *)
Definition row_full : Parser.Row := {|
  Parser.get_text := "CS 4349.004 0 seats available Full";
  Parser.stopbubble := Some "CS 4349.004";
  Parser.first_anchor := Some "CS 4349.004";
  Parser.status_span := None
|}.

(** A row in the labelled form, with one seat fewer taken than in
    [entry_open_30]. *)
Definition row_open_29 : Parser.Row := {|
  Parser.get_text := "CS 4349.003 Enrl: 29 Cap: 30 Open";
  Parser.stopbubble := Some cs4349;
  Parser.first_anchor := Some cs4349;
  Parser.status_span := Some "Open"
|}.

Definition info_nothing : Parser.Info := {|
  Parser.label := PStr cs4349;
  Parser.enrolled := PNone;
  Parser.capacity := PNone;
  Parser.seats_available := PNone;
  Parser.status_text := PNone;
  Parser.raw := "CS 4349.003"
|}.

(** No seat left although the status word says open. *)
Definition info_zero_seats_open : Parser.Info := {|
  Parser.label := PStr cs4349;
  Parser.enrolled := PInt 12;
  Parser.capacity := PInt 30;
  Parser.seats_available := PInt 0;
  Parser.status_text := PStr "open";
  Parser.raw := "CS 4349.003 12 / 30 0 seats Open"
|}.

(** A status text with a word of both families. *)
Definition info_open_waitlist : Parser.Info := {|
  Parser.label := PStr cs4349;
  Parser.enrolled := PNone;
  Parser.capacity := PNone;
  Parser.seats_available := PNone;
  Parser.status_text := PStr "open (waitlist full)";
  Parser.raw := "CS 4349.003"
|}.

(** Entries as [runner.mark_notified] writes them (aware time stamp). *)
Definition entry_open_30 : Entry :=
  {[ "last_notified" := PStr "2025-01-15T12:00:00+00:00";
     "last_status" := PStr "open";
     "enrolled" := PInt 30 ]}.

Definition entry_closed_30 : Entry :=
  {[ "last_notified" := PStr "2025-01-15T12:00:00+00:00";
     "last_status" := PStr "closed";
     "enrolled" := PInt 30 ]}.

Definition entry_open_12 : Entry :=
  {[ "last_notified" := PStr "2025-01-15T12:00:00+00:00";
     "last_status" := PStr "open";
     "enrolled" := PInt 12 ]}.

(** Entries as [notifier.mark_notified] writes them (naive time stamp). *)
Definition entry_naive_open : Entry :=
  {[ "last_status" := PStr "open";
     "last_notified" := PStr "2025-01-15T12:00:00" ]}.

Definition entry_naive_closed : Entry :=
  {[ "last_status" := PStr "closed";
     "last_notified" := PStr "2025-01-15T12:00:00" ]}.

(** An entry whose time stamp was damaged. *)
Definition entry_damaged : Entry :=
  {[ "last_status" := PStr "open";
     "last_notified" := PStr "yesterday" ]}.

Definition state_of (e : Entry) : State := {[ cs4349 := e ]}.

(** Discord refuses to open the DM channel of the only subscriber. *)
Definition refused : Runner.dm_exchange := {|
  Runner.open_dm := Http 403;
  Runner.channel_id := Ret PNone;
  Runner.send_dm := Http 403
|}.

Definition delivered : Runner.dm_exchange := {|
  Runner.open_dm := Http 200;
  Runner.channel_id := Ret (PStr "1001");
  Runner.send_dm := Http 200
|}.

Definition cycle_of (tr : Parser.Row) (now : Z)
    (xs : list Runner.dm_exchange) : Runner.cycle := {|
  Runner.rows := Parser.parse_results_fragment [tr];
  Runner.now_decide := now;
  Runner.now_mark := now;
  Runner.exchanges := xs
|}.

End Samples.

Import Samples.

(** * More of the program

    The rest of [parse_row_element], the embed [notify_open] posts, [main]
    of the checker from its arguments, and the commands of [src/bot.py]. *)

(** ** The seat count of a row *)

Module Layout.

(** The layout [SEATS_AVAILABLE_RE] looks for: in [text] stand the digits
    [d], white space, and the word "seat" in any case of its letters. *)
Definition seats_form (text d : string) : Prop :=
  exists pre ws seat post,
    text = pre +:+ (d +:+ ws +:+ seat) +:+ post /\
    Parser.is_number d /\
    ws <> EmptyString /\ Re.all_chars Str.is_space ws = true /\
    Str.lower seat = "seat".

(** The same layout with its place: the digits [d] stand right after
    [pre]. *)
Definition seats_form_at (text pre d : string) : Prop :=
  exists ws seat post,
    text = pre +:+ (d +:+ ws +:+ seat) +:+ post /\
    Parser.is_number d /\
    ws <> EmptyString /\ Re.all_chars Str.is_space ws = true /\
    Str.lower seat = "seat".

(** The place [pattern.search] stops at: the one that starts furthest to
    the left. *)
Definition first_seats_form (text d : string) : Prop :=
  exists pre, seats_form_at text pre d /\
    forall pre' d', seats_form_at text pre' d' ->
      (String.length pre <= String.length pre')%nat.

(** A count of the dictionary: absent, or an integer that is not
    negative. *)
Definition count_ok (v : pyval) : bool :=
  match v with
  | PNone => true
  | PInt n => (0 <=? n)%Z
  | _ => false
  end.

(** [a < b] between two counts, when both are there. *)
Definition count_below (a b : pyval) : bool :=
  match a, b with
  | PInt x, PInt y => (x <? y)%Z
  | _, _ => false
  end.

End Layout.

(** ** [notifier.notify_open]: the embed *)

Module Embed.

(** [str(v)], as an f-string shows a value. *)
Definition py_str (v : pyval) : string :=
  match v with
  | PNone => "None"
  | PBool true => "True"
  | PBool false => "False"
  | PInt z => NilZero.string_of_int (Z.to_int z)
  | PStr s => s
  end.

(** [s.strip()] *)
Fixpoint lstrip (s : string) : string :=
  match s with
  | EmptyString => EmptyString
  | String c s' => if Str.is_space c then lstrip s' else s
  end.

Fixpoint rstrip (s : string) : string :=
  match s with
  | EmptyString => EmptyString
  | String c s' =>
      let r := rstrip s' in
      if String.eqb r EmptyString && Str.is_space c then EmptyString
      else String c r
  end.

Definition strip (s : string) : string := rstrip (lstrip s).

Definition seats_field (section_info : Parser.Info) : string :=
  let enrolled := Parser.enrolled section_info in
  let capacity := Parser.capacity section_info in
  let seats_available := Parser.seats_available section_info in
  if negb (is_none seats_available)
  then py_str seats_available +:+ " seats available"
  else if negb (is_none enrolled) && negb (is_none capacity)
  then py_str enrolled +:+ "/" +:+ py_str capacity +:+ " enrolled"
  else "unknown".

(** [raw], stripped, cut to 400 characters and an ellipsis when longer. *)
Definition snippet (raw : string) : string :=
  let snippet := strip raw in
  if (400 <? String.length snippet)%nat
  then String.substring 0 400 snippet +:+ "..."
  else snippet.

Record embed := {
  title : string;
  description : string;
  color : Z;
  seats_value : string;          (* the field "Seats" *)
  checked_value : string;        (* the field "Checked (UTC)" *)
  footer_text : string
}.

(** The embed [notify_open] builds, at the clock reading [now].  The
    dictionaries of the parser have no [detail_url], so no [url] is
    set. *)
Definition notify_open_embed `{IsoFormat} (now : Z)
    (section_info : Parser.Info) : embed :=
  let label :=
    if truthy (Parser.label section_info) then Parser.label section_info
    else PStr "<unknown>" in
  let snippet := snippet (Parser.raw section_info) in
  {| title := "Class open: " +:+ py_str label;
     description :=
       if truthy (PStr snippet) then snippet else "No extra info";
     color := 3066993;           (* 0x2ECC71 *)
     seats_value := seats_field section_info;
     checked_value := isoformat (utcnow now) +:+ "Z";
     footer_text := "Class Availability Tracker" |}.

End Embed.

(** ** [checker_playwright.main], from its arguments

    [str.upper] stays a parameter. *)

Module Cli.
Section WithUpper.
Context `{IsoFormat}.
Variable upper : string -> string.

Fixpoint zeros (n : nat) : string :=
  match n with
  | O => EmptyString
  | S n' => String "0" (zeros n')
  end.

(** [s.zfill(width)]: zeros on the left up to [width] characters, after
    the sign when [s] starts with one. *)
Definition zfill (width : nat) (s : string) : string :=
  let fill := zeros (width - String.length s) in
  match s with
  | String c s' =>
      if Ascii.eqb c "+" || Ascii.eqb c "-" then String c (fill +:+ s')
      else fill +:+ s
  | EmptyString => fill
  end.

Definition target_label (subject number section : string) : string :=
  upper subject +:+ " " +:+ number +:+ "." +:+ zfill 3 section.

(** The loop that looks for the row of the section: the first row whose
    label is a non-empty string that starts with [target]. *)
Fixpoint find_match (target : string) (rows : list Parser.Info)
    : outcome (option Parser.Info) :=
  match rows with
  | [] => Ret None
  | info :: rest =>
      if negb (truthy (Parser.label info)) then find_match target rest
      else
        match Parser.label info with
        | PStr l =>
            if String.prefix target l then Ret (Some info)
            else find_match target rest
        | _ => Raise AttributeError
        end
  end.

(** [main(argv)] on the rows of the page the browser returned: the state
    file afterwards.  Without exactly three arguments, without a matching
    row, or on an exception outside the notifier, nothing is written. *)
Definition main (WEBHOOK_URL : pyval) (resp : response)
    (now_decide now_mark : Z) (argv : list string)
    (page : list Parser.Row) (state : State) : State :=
  match argv with
  | [_; subject; number; section] =>
      let target := target_label subject number section in
      match find_match target (Parser.parse_results_fragment page) with
      | Ret (Some match_) =>
          Checker.main WEBHOOK_URL resp now_decide now_mark match_ state
      | _ => state
      end
  | _ => state
  end.

End WithUpper.
End Cli.

(** ** [src/bot.py]: the subscriptions

    [data/subscriptions.json] is a dictionary from labels to lists of user
    ids; it keeps its keys in the order they were inserted, so it is a
    list of pairs here.  Each command loads the file, and saves it when
    it has changed something; the functions return the file afterwards
    and the answer sent to the user. *)

Module Bot.
Section WithUpper.
Variable upper : string -> string.

Abbreviation Subs := (list (string * list string)).

(** [d.get(k)], [d[k] = v] and [d.pop(k)] *)
Fixpoint dict_get {V} (k : string) (d : list (string * V)) : option V :=
  match d with
  | [] => None
  | (k', v) :: rest => if String.eqb k k' then Some v else dict_get k rest
  end.

Fixpoint dict_set {V} (k : string) (v : V) (d : list (string * V))
    : list (string * V) :=
  match d with
  | [] => [(k, v)]
  | (k', v') :: rest =>
      if String.eqb k k' then (k, v) :: rest
      else (k', v') :: dict_set k v rest
  end.

Fixpoint dict_pop {V} (k : string) (d : list (string * V))
    : list (string * V) :=
  match d with
  | [] => []
  | (k', v') :: rest =>
      if String.eqb k k' then rest else (k', v') :: dict_pop k rest
  end.

(** [x in l] and [l.remove(x)] on a list of strings *)
Definition mem (x : string) (l : list string) : bool :=
  existsb (String.eqb x) l.

Fixpoint remove_first (x : string) (l : list string) : list string :=
  match l with
  | [] => []
  | y :: rest => if String.eqb x y then rest else y :: remove_first x rest
  end.

Inductive reply :=
| NowTracking (label : string)
| AlreadyTracking (label : string)
| Stopped (label : string)
| NotTracking (label : string)
| Tracking (labels : list string)
| TrackingNothing.

Definition label_of (subject number section : string) : string :=
  upper subject +:+ " " +:+ number +:+ " " +:+ section.

(** [/track] *)
Definition track (subs : Subs) (user_id subject number section : string)
    : Subs * reply :=
  let label := label_of subject number section in
  let subs1 :=
    match dict_get label subs with
    | None => dict_set label [] subs
    | Some _ => subs
    end in
  let users := default [] (dict_get label subs1) in
  if mem user_id users then (subs, AlreadyTracking label)
  else (dict_set label (users ++ [user_id])%list subs1, NowTracking label).

(** [/untrack] *)
Definition untrack (subs : Subs) (user_id subject number section : string)
    : Subs * reply :=
  let label := label_of subject number section in
  match dict_get label subs with
  | None => (subs, NotTracking label)
  | Some users =>
      if negb (mem user_id users) then (subs, NotTracking label)
      else
        let users' := remove_first user_id users in
        match users' with
        | [] => (dict_pop label subs, Stopped label)
        | _ => (dict_set label users' subs, Stopped label)
        end
  end.

(** The labels whose list of users holds [user_id], in the order of the
    file. *)
Definition tracked_by (subs : Subs) (user_id : string) : list string :=
  map fst (List.filter (fun p => mem user_id (snd p)) subs).

(** [/list] *)
Definition list_cmd (subs : Subs) (user_id : string) : reply :=
  match tracked_by subs user_id with
  | [] => TrackingNothing
  | tracked => Tracking tracked
  end.

(** What the commands keep true of the file: no label twice, and for
    each label a list of users that is not empty and names no user
    twice. *)
Definition subs_ok (subs : Subs) : Prop :=
  NoDup (map fst subs) /\
  Forall (fun p => snd p <> [] /\ NoDup (snd p)) subs.

End WithUpper.
End Bot.

(** ** More sample data *)

Module MoreSamples.

(** Every seat taken although the status word says open. *)
Definition info_full_but_open : Parser.Info := {|
  Parser.label := PStr cs4349;
  Parser.enrolled := PInt 30;
  Parser.capacity := PInt 30;
  Parser.seats_available := PNone;
  Parser.status_text := PStr "open";
  Parser.raw := "CS 4349.003 30 / 30 Open"
|}.

(** Two records with the status word alone, in small letters and in
    capitals. *)
Definition info_open_word : Parser.Info := {|
  Parser.label := PStr cs4349;
  Parser.enrolled := PNone;
  Parser.capacity := PNone;
  Parser.seats_available := PNone;
  Parser.status_text := PStr "open";
  Parser.raw := "CS 4349.003 open"
|}.

Definition info_open_capitals : Parser.Info := {|
  Parser.label := PStr cs4349;
  Parser.enrolled := PNone;
  Parser.capacity := PNone;
  Parser.seats_available := PNone;
  Parser.status_text := PStr "OPEN";
  Parser.raw := "CS 4349.003 OPEN"
|}.

(** A row without numbers or status marker that says both "open" and
    "full". *)
Definition row_words : Parser.Row := {|
  Parser.get_text := "CS 4349.003 Open (was Full)";
  Parser.stopbubble := Some cs4349;
  Parser.first_anchor := Some cs4349;
  Parser.status_span := None
|}.

(** The section with one seat left, then with none, the status word
    still saying open; and the entry [runner.mark_notified] writes for
    the first of them at [T0]. *)
Definition row_29_of_30 : Parser.Row := {|
  Parser.get_text := "CS 4349.003 29 / 30 Open";
  Parser.stopbubble := Some cs4349;
  Parser.first_anchor := Some cs4349;
  Parser.status_span := None
|}.

Definition row_30_of_30 : Parser.Row := {|
  Parser.get_text := "CS 4349.003 30 / 30 Open";
  Parser.stopbubble := Some cs4349;
  Parser.first_anchor := Some cs4349;
  Parser.status_span := None
|}.

Definition entry_open_29 : Entry :=
  {[ "last_notified" := PStr "2025-01-15T12:00:00+00:00";
     "last_status" := PStr "open";
     "enrolled" := PInt 29 ]}.

(** The row "CS 4349.003 30 / 30 Full": closed, in another word than
    the "closed" of [entry_closed_30]. *)
Definition row_full_30 : Parser.Row := {|
  Parser.get_text := "CS 4349.003 30 / 30 Full";
  Parser.stopbubble := Some cs4349;
  Parser.first_anchor := Some cs4349;
  Parser.status_span := None
|}.

(** A row with two numbers before the word "seats". *)
Definition row_ten_seats : Parser.Row := {|
  Parser.get_text := "CS 1 10 seats";
  Parser.stopbubble := Some "CS 1";
  Parser.first_anchor := Some "CS 1";
  Parser.status_span := None
|}.

(** Discord answers 200 to the request for the DM channel, with a body
    that is not JSON. *)
Definition garbled : Runner.dm_exchange := {|
  Runner.open_dm := Http 200;
  Runner.channel_id := Raise ValueError;
  Runner.send_dm := Http 200
|}.

(** [str.upper] on plain letters. *)
Definition upper_char (c : ascii) : ascii :=
  let n := Str.code c in
  if ((97 <=? n) && (n <=? 122))%N then ascii_of_N (n - 32) else c.

Fixpoint sample_upper (s : string) : string :=
  match s with
  | EmptyString => EmptyString
  | String c s' => String (upper_char c) (sample_upper s')
  end.

(** A subscriptions file. *)
Definition subs0 : list (string * list string) :=
  [ ("CS 4349 003", ["1001"]); ("MATH 2414 001", ["1001"; "1002"]) ].

End MoreSamples.

Import MoreSamples.

(** * Properties *)

(** ** Substrings and lower-casing *)

Section StrFacts.

Lemma prefix_app (tok s : string) :
  String.prefix tok s = true <-> exists rest, s = tok +:+ rest.
Proof.
  revert s; induction tok as [|a tok IH]; intros s; simpl.
  - split; [intros _; exists s; reflexivity | intros _; now destruct s].
  - destruct s as [|b s]; simpl.
    + split; [discriminate | intros [rest Hr]; discriminate].
    + destruct (Ascii.ascii_dec a b) as [->|Hab].
      * rewrite IH. split; intros [rest Hr]; exists rest.
        -- now rewrite Hr.
        -- now injection Hr.
      * split; [discriminate | intros [rest Hr]; injection Hr; congruence].
Qed.

(** [tok in s] holds exactly when [s] is some text, then [tok], then some
    more text. *)
Lemma contains_app (tok s : string) :
  Str.contains tok s = true <-> exists pre post, s = pre +:+ tok +:+ post.
Proof.
  induction s as [|c s IH]; cbn [Str.contains].
  - rewrite orb_false_r, prefix_app. split.
    + intros [rest Hr]. exists EmptyString, rest. exact Hr.
    + intros [pre [post Hs]]. destruct pre; [exists post; exact Hs | discriminate].
  - rewrite orb_true_iff, prefix_app, IH. split.
    + intros [[rest Hr] | [pre [post Hs]]].
      * exists EmptyString, rest. exact Hr.
      * exists (String c pre), post. simpl. now rewrite Hs.
    + intros [pre [post Hs]]. destruct pre as [|d pre]; simpl in Hs.
      * left. exists post. exact Hs.
      * right. injection Hs as _ Hs. exists pre, post. exact Hs.
Qed.

Lemma lower_app (s t : string) :
  Str.lower (s +:+ t) = Str.lower s +:+ Str.lower t.
Proof. induction s as [|c s IH]; simpl; [reflexivity | now rewrite IH]. Qed.

(** Lower-casing keeps an occurrence: it works character by character. *)
Lemma contains_lower (tok s : string) :
  Str.contains tok s = true ->
  Str.contains (Str.lower tok) (Str.lower s) = true.
Proof.
  rewrite !contains_app. intros [pre [post ->]].
  exists (Str.lower pre), (Str.lower post). now rewrite !lower_app.
Qed.

Lemma contains_nonempty (tok s : string) :
  tok <> EmptyString -> Str.contains tok s = true -> s <> EmptyString.
Proof.
  intros Htok Hc ->. cbn [Str.contains] in Hc. rewrite orb_false_r in Hc.
  destruct tok; [congruence | discriminate].
Qed.

Lemma lower_nonempty (s : string) : s <> EmptyString -> Str.lower s <> EmptyString.
Proof. destruct s; [congruence | discriminate]. Qed.

Lemma truthy_str (s : string) : truthy (PStr s) = true <-> s <> EmptyString.
Proof.
  simpl. rewrite negb_true_iff. split.
  - intros Hne ->. discriminate.
  - intros Hne. apply String.eqb_neq. exact Hne.
Qed.

(** The three open words are lower case, so an occurrence in a status
    text is still there once the text is lower-cased. *)
Lemma open_token_lower (s tok pre post : string) :
  In tok Parser.open_tokens -> s = pre +:+ tok +:+ post ->
  Str.any_in Parser.open_tokens (Str.lower s) = true /\ s <> EmptyString.
Proof.
  intros Htok Hs.
  assert (Hc : Str.contains tok s = true).
  { apply contains_app. exists pre, post. exact Hs. }
  apply contains_lower in Hc.
  unfold Str.any_in, Parser.open_tokens in *. simpl in Htok.
  cbn [existsb]. rewrite !orb_true_iff.
  destruct Htok as [<- | [<- | [<- | []]]]; (split; [auto |]);
    intros ->; destruct pre; discriminate.
Qed.

End StrFacts.

(** ** The openness classifier *)

Section Classifier.

Import Parser.

(** Rows parsed by [parse_row_element] have the documented shape. *)
Lemma parse_row_element_well_formed (tr : Row) :
  well_formed (parse_row_element tr) = true.
Proof.
  unfold well_formed, parse_row_element, enrolled_capacity, status_from_text.
  destruct (Re.search NUMERIC_SLASH_RE (get_text tr));
    [| destruct (Re.search ENRL_CAP_RE (get_text tr))];
    destruct (Re.search SEATS_AVAILABLE_RE (get_text tr)),
      (stopbubble tr), (first_anchor tr), (status_span tr);
    cbn [label enrolled capacity seats_available status_text opt_str fmap
         option_fmap option_map str_or_none int_or_none andb];
    repeat match goal with
           | |- context [if ?b then _ else _] => destruct b
           end; reflexivity.
Qed.

(** C4. When [seats_available] is present, [is_section_open] answers
    [seats_available > 0], and the answer is the same for every record
    with that [seats_available], whatever its [enrolled], [capacity] and
    [status_text]. *)
Theorem seats_available_decides (info : Info) (n : Z) :
  seats_available info = PInt n ->
  is_section_open info = Ret (0 <? n)%Z /\
  forall info' : Info,
    seats_available info' = seats_available info ->
    is_section_open info' = is_section_open info.
Proof.
  intros Hn. unfold is_section_open. split.
  - rewrite Hn. reflexivity.
  - intros info' Heq. rewrite Heq, Hn. reflexivity.
Qed.

(** No seat available and the status text "open": closed. *)
Lemma seats_available_decides_zero_open :
  seats_available info_zero_seats_open = PInt 0 /\
  status_text info_zero_seats_open = PStr "open" /\
  is_section_open info_zero_seats_open = Ret false.
Proof.
  split; [reflexivity | split; [reflexivity |]].
  exact (proj1 (seats_available_decides info_zero_seats_open 0 eq_refl)).
Defined.

(** On a record of the documented shape no comparison and no method call
    of [is_section_open] can raise. *)
Lemma is_section_open_returns (info : Info) :
  well_formed info = true -> exists b : bool, is_section_open info = Ret b.
Proof.
  intros Hwf. unfold well_formed in Hwf. rewrite !andb_true_iff in Hwf.
  destruct Hwf as [[[[_ Hen] Hcap] Hseats] Hst].
  unfold is_section_open.
  destruct (seats_available info) as [| |n|]; try discriminate; simpl.
  2: { eexists; reflexivity. }
  destruct (enrolled info) as [| |e|], (capacity info) as [| |c|];
    try discriminate; simpl; try (eexists; reflexivity);
    (destruct (status_text info) as [| | |s]; try discriminate;
     unfold or_empty_lower; simpl;
     [ eexists; reflexivity
     | destruct (negb (s =? EmptyString))%string; simpl;
       repeat match goal with
              | |- context [if ?b then _ else _] => destruct b
              end; eexists; reflexivity ]).
Qed.

(** C8. [is_section_open] returns a boolean, without raising, on every
    record of the documented shape, and returns [False] when
    [seats_available], [enrolled], [capacity] and [status_text] are all
    absent. *)
Theorem is_section_open_total (info : Info) :
  well_formed info = true ->
  (exists b : bool, is_section_open info = Ret b) /\
  (seats_available info = PNone -> enrolled info = PNone ->
   capacity info = PNone -> status_text info = PNone ->
   is_section_open info = Ret false).
Proof.
  intros Hwf. split.
  - exact (is_section_open_returns info Hwf).
  - intros Hs He Hc Ht. unfold is_section_open.
    rewrite Hs, He, Hc, Ht. reflexivity.
Qed.

Lemma is_section_open_total_nothing :
  well_formed info_nothing = true /\
  is_section_open info_nothing = Ret false.
Proof.
  split; [reflexivity |].
  exact (proj2 (is_section_open_total info_nothing eq_refl)
           eq_refl eq_refl eq_refl eq_refl).
Defined.

(** Outside the documented shape the function does raise: the totality
    above is a property of well-formed records, not of the embedding. *)
Example is_section_open_raises_on_text_count :
  is_section_open
    {| label := PNone; enrolled := PNone; capacity := PNone;
       seats_available := PStr "3"; status_text := PNone; raw := EmptyString |}
  = Raise TypeError.
Proof. reflexivity. Qed.

(** C10. With [seats_available], [enrolled] and [capacity] absent, a
    status text that contains "open", "available" or "seat" as a substring
    classifies as open, whether or not it also contains one of the closed
    words: the open words are looked for first. *)
Theorem open_words_first (info : Info) (s tok pre post : string) :
  seats_available info = PNone -> enrolled info = PNone ->
  capacity info = PNone -> status_text info = PStr s ->
  In tok open_tokens -> s = pre +:+ tok +:+ post ->
  is_section_open info = Ret true.
Proof.
  intros Hs He Hc Ht Htok Hocc.
  destruct (open_token_lower s tok pre post Htok Hocc) as [Hlow Hne].
  unfold is_section_open, or_empty_lower.
  rewrite Hs, He, Hc, Ht. cbn [is_none negb andb].
  rewrite (proj2 (truthy_str s) Hne). cbn [mbind outcome_bind].
  rewrite (proj2 (truthy_str _) (lower_nonempty s Hne)), Hlow.
  reflexivity.
Qed.

Lemma open_words_first_with_closed_words :
  Str.any_in closed_tokens "open (waitlist full)" = true /\
  is_section_open info_open_waitlist = Ret true.
Proof.
  split; [reflexivity |].
  exact (open_words_first info_open_waitlist "open (waitlist full)"
           "open" EmptyString " (waitlist full)"
           eq_refl eq_refl eq_refl eq_refl (or_introl eq_refl) eq_refl).
Defined.

(** X6. Rows that come out of the parser are classified without an
    exception. *)
Corollary is_section_open_parsed (tr : Row) :
  exists b : bool, is_section_open (parse_row_element tr) = Ret b.
Proof.
  apply is_section_open_returns, parse_row_element_well_formed.
Qed.

End Classifier.

(** ** The pattern matcher finds a match exactly when there is one *)

Section Matcher.

Import Re.

Lemma cons_app (c : ascii) (a b : string) :
  String c a +:+ b = String c (a +:+ b).
Proof. reflexivity. Qed.

Lemma app_assoc_str (a b c : string) : (a +:+ b) +:+ c = a +:+ (b +:+ c).
Proof.
  induction a as [|x a IH]; [reflexivity | now rewrite !cons_app, IH].
Qed.

Lemma app_nil_str (a : string) : a +:+ EmptyString = a.
Proof. induction a as [|x a IH]; [reflexivity | now rewrite cons_app, IH]. Qed.

Lemma rep_result_stop {R} p least s (k : string -> option R) x :
  stop_here least s k = Some x -> rep_result p least s k x.
Proof.
  destruct least; simpl; [|discriminate]. intros Hk.
  exists EmptyString, s. repeat split; [lia | exact Hk].
Qed.

Lemma rep_result_more {R} p n least c s (k : string -> option R) x :
  p c = true -> (Nat.pred least <= n)%nat ->
  rep_result p n s k x -> rep_result p least (String c s) k x.
Proof.
  intros Hpc Hn (w & rest & -> & Hall & Hlen & Hk).
  exists (String c w), rest. simpl. rewrite Hpc, Hall.
  repeat split; [lia | exact Hk].
Qed.

Lemma rep_greedy_sound {R} p least s (k : string -> option R) x :
  rep_greedy p least s k = Some x -> rep_result p least s k x.
Proof.
  revert least. induction s as [|c s IH]; intros least; simpl.
  - apply rep_result_stop.
  - destruct (p c) eqn:Hpc; [|apply rep_result_stop].
    destruct (rep_greedy p (Nat.pred least) s k) as [y|] eqn:Hrec;
      [|apply rep_result_stop].
    intros [= ->]. eapply rep_result_more; eauto.
Qed.

Lemma rep_lazy_sound {R} p least s (k : string -> option R) x :
  rep_lazy p least s k = Some x -> rep_result p least s k x.
Proof.
  revert least. induction s as [|c s IH]; intros [|n]; simpl;
    try discriminate.
  - destruct (k EmptyString) eqn:Hk; [|discriminate]. intros [= ->].
    apply rep_result_stop. exact Hk.
  - destruct (k (String c s)) eqn:Hk.
    + intros [= ->]. apply rep_result_stop. exact Hk.
    + destruct (p c) eqn:Hpc; [|discriminate]. intros Hrec.
      eapply rep_result_more; eauto.
  - destruct (p c) eqn:Hpc; [|discriminate]. intros Hrec.
    eapply rep_result_more; eauto.
Qed.

Lemma rep_greedy_complete {R} p least w rest (k : string -> option R) :
  all_chars p w = true -> (least <= String.length w)%nat ->
  is_Some (k rest) -> is_Some (rep_greedy p least (w +:+ rest) k).
Proof.
  revert least. induction w as [|c w IH]; intros least Hall Hlen Hk; simpl in *.
  - assert (least = 0%nat) as -> by lia.
    destruct rest as [|c rest]; simpl; [exact Hk |].
    destruct (p c); [|exact Hk].
    destruct (rep_greedy p 0 rest k); [eexists; reflexivity | exact Hk].
  - apply andb_true_iff in Hall as [Hpc Hall]. rewrite Hpc.
    destruct (IH (Nat.pred least) Hall ltac:(lia) Hk) as [y ->].
    eexists; reflexivity.
Qed.

Lemma rep_lazy_complete {R} p least w rest (k : string -> option R) :
  all_chars p w = true -> (least <= String.length w)%nat ->
  is_Some (k rest) -> is_Some (rep_lazy p least (w +:+ rest) k).
Proof.
  revert least. induction w as [|c w IH]; intros least Hall Hlen Hk; simpl in *.
  - assert (least = 0%nat) as -> by lia.
    destruct Hk as [y Hy].
    destruct rest as [|c rest]; simpl; rewrite Hy; eexists; reflexivity.
  - apply andb_true_iff in Hall as [Hpc Hall].
    destruct least as [|n]; rewrite ?cons_app; simpl; rewrite Hpc.
    + destruct (k (String c (w +:+ rest))); [eexists; reflexivity |].
      apply IH; [exact Hall | lia | exact Hk].
    + apply IH; [exact Hall | lia | exact Hk].
Qed.

Lemma length_app_str (a b : string) :
  String.length (a +:+ b) = (String.length a + String.length b)%nat.
Proof.
  induction a as [|x a IH]; [reflexivity |].
  rewrite cons_app. simpl. now rewrite IH.
Qed.

Lemma substring_prefix (w rest : string) :
  String.substring 0 (String.length w) (w +:+ rest) = w.
Proof.
  induction w as [|x w IH].
  - destruct rest; reflexivity.
  - rewrite cons_app. simpl. now rewrite IH.
Qed.

Lemma consumed_app (w rest : string) : consumed (w +:+ rest) rest = w.
Proof.
  unfold consumed. rewrite length_app_str.
  replace (String.length w + String.length rest - String.length rest)%nat
    with (String.length w) by lia.
  apply substring_prefix.
Qed.

(** A run that succeeds has read a string of the pattern, set the groups
    as the pattern says, and passed both on to its continuation. *)
Lemma run_captures {R} (r : re) :
  forall s caps (k : string -> gmap nat string -> option R) x,
    run r s caps k = Some x ->
    exists w rest caps', s = w +:+ rest /\ matches_with r w caps caps' /\
      k rest caps' = Some x.
Proof.
  induction r as [|p|r1 IH1 r2 IH2|r1 IH1 r2 IH2|g least p|r1 IH1|i r1 IH1];
    intros s caps k x; simpl.
  - intros Hk. exists EmptyString, s, caps. auto.
  - destruct s as [|c s]; [discriminate|].
    destruct (p c) eqn:Hpc; [|discriminate]. intros Hk.
    exists (String c EmptyString), s, caps. repeat split; eauto.
  - intros Hrun. apply IH1 in Hrun as (w1 & rest1 & caps1 & -> & Hm1 & Hrun).
    apply IH2 in Hrun as (w2 & rest & caps2 & -> & Hm2 & Hk).
    exists (w1 +:+ w2), rest, caps2. rewrite app_assoc_str. eauto 10.
  - destruct (run r1 s caps k) as [y|] eqn:H1.
    + intros [= ->]. apply IH1 in H1 as (w & rest & caps' & -> & Hm & Hk).
      exists w, rest, caps'. auto.
    + intros H2. apply IH2 in H2 as (w & rest & caps' & -> & Hm & Hk).
      exists w, rest, caps'. auto.
  - intros Hrep.
    assert (Hres : rep_result p least s (fun s' => k s' caps) x).
    { destruct g; [apply rep_greedy_sound | apply rep_lazy_sound]; exact Hrep. }
    destruct Hres as (w & rest & -> & Hall & Hlen & Hk).
    exists w, rest, caps. auto.
  - destruct (run r1 s caps k) as [y|] eqn:H1.
    + intros [= ->]. apply IH1 in H1 as (w & rest & caps' & -> & Hm & Hk).
      exists w, rest, caps'. auto.
    + intros Hk. exists EmptyString, s, caps. auto.
  - intros Hrun. apply IH1 in Hrun as (w & rest & caps' & -> & Hm & Hk).
    rewrite consumed_app in Hk.
    exists w, rest, (<[i := w]> caps'). eauto.
Qed.

Lemma matches_with_matches (r : re) :
  forall w caps caps', matches_with r w caps caps' -> matches r w.
Proof.
  induction r as [|p|r1 IH1 r2 IH2|r1 IH1 r2 IH2|g least p|r1 IH1|i r1 IH1];
    intros w caps caps'; simpl.
  - tauto.
  - tauto.
  - intros (w1 & w2 & caps1 & -> & H1 & H2). eauto 10.
  - intros [H1 | H2]; eauto.
  - tauto.
  - intros [[-> _] | H1]; eauto.
  - intros (caps1 & H1 & _). eauto.
Qed.

(** Soundness, without the groups. *)
Corollary run_sound {R} (r : re) s caps
    (k : string -> gmap nat string -> option R) x :
  run r s caps k = Some x ->
  exists w rest caps', s = w +:+ rest /\ matches r w /\ k rest caps' = Some x.
Proof.
  intros Hrun. apply run_captures in Hrun as (w & rest & caps' & Hs & Hm & Hk).
  exists w, rest, caps'. eauto using matches_with_matches.
Qed.

(** Completeness: when a prefix of the input is a string of the pattern
    and the continuation accepts what follows it, the run succeeds
    (perhaps on another prefix, tried earlier). *)
Lemma run_complete {R} (r : re) :
  forall w rest caps (k : string -> gmap nat string -> option R),
    matches r w -> (forall caps', is_Some (k rest caps')) ->
    is_Some (run r (w +:+ rest) caps k).
Proof.
  induction r as [|p|r1 IH1 r2 IH2|r1 IH1 r2 IH2|g least p|r1 IH1|i r1 IH1];
    intros w rest caps k Hm Hk; simpl in Hm |- *.
  - subst w. apply Hk.
  - destruct Hm as (c & -> & Hpc). rewrite cons_app. simpl. rewrite Hpc. apply Hk.
  - destruct Hm as (w1 & w2 & -> & Hm1 & Hm2). rewrite app_assoc_str.
    apply IH1; [exact Hm1 |]. intros caps'. apply IH2; assumption.
  - destruct (run r1 (w +:+ rest) caps k) eqn:H1; [eexists; reflexivity |].
    destruct Hm as [Hm | Hm]; [|apply IH2; assumption].
    destruct (IH1 w rest caps k Hm Hk) as [y Hy]. congruence.
  - destruct Hm as [Hall Hlen].
    destruct g; [apply rep_greedy_complete | apply rep_lazy_complete]; auto.
  - destruct (run r1 (w +:+ rest) caps k) eqn:H1; [eexists; reflexivity |].
    destruct Hm as [-> | Hm]; [apply Hk |].
    destruct (IH1 w rest caps k Hm Hk) as [y Hy]. congruence.
  - apply IH1; [exact Hm |]. intros caps'. apply Hk.
Qed.

(** [search] answers with a match exactly when the pattern matches
    somewhere in the text. *)
Lemma search_occurs (r : re) (s : string) :
  is_Some (search r s) <-> occurs r s.
Proof.
  unfold occurs. induction s as [|c s IH]; simpl.
  - destruct (run r EmptyString ∅ (fun _ caps => Some caps)) as [m|] eqn:Hrun.
    + split; [intros _ | eexists; reflexivity].
      apply run_sound in Hrun as (w & rest & caps' & Hs & Hm & _).
      exists EmptyString, w, rest. auto.
    + split; [intros [m Hm]; discriminate |].
      intros (pre & w & post & Hs & Hm).
      destruct pre; [|discriminate]. simpl in Hs.
      destruct (run_complete r w post ∅ (fun _ caps => Some caps) Hm) as [y Hy].
      { intros caps'. eexists; reflexivity. }
      change (EmptyString +:+ w +:+ post) with (w +:+ post) in Hs.
      rewrite <- Hs in Hy. congruence.
  - destruct (run r (String c s) ∅ (fun _ caps => Some caps)) as [m|] eqn:Hrun.
    + split; [intros _ | eexists; reflexivity].
      apply run_sound in Hrun as (w & rest & caps' & Hs & Hm & _).
      exists EmptyString, w, rest. auto.
    + rewrite IH. split.
      * intros (pre & w & post & -> & Hm). exists (String c pre), w, post. auto.
      * intros (pre & w & post & Hs & Hm). destruct pre as [|d pre].
        -- change (EmptyString +:+ w +:+ post) with (w +:+ post) in Hs.
           destruct (run_complete r w post ∅ (fun _ caps => Some caps) Hm)
             as [y Hy].
           { intros caps'. eexists; reflexivity. }
           rewrite <- Hs in Hy. congruence.
        -- rewrite cons_app in Hs. injection Hs as _ ->.
           exists pre, w, post. auto.
Qed.

Corollary search_none (r : re) (s : string) :
  search r s = None <-> ~ occurs r s.
Proof.
  rewrite <- search_occurs. destruct (search r s); split; intros Hn.
  - discriminate.
  - exfalso. apply Hn. eexists; reflexivity.
  - intros [m Hm]. discriminate.
  - reflexivity.
Qed.

End Matcher.

(** ** What the groups of a match hold *)

Section Groups.

Import Re.

Lemma search_captures (r : re) (s : string) (m : gmap nat string) :
  search r s = Some m ->
  exists pre w post, s = pre +:+ w +:+ post /\ matches_with r w ∅ m.
Proof.
  induction s as [|c s IH]; simpl.
  - destruct (run r EmptyString ∅ (fun _ caps => Some caps)) as [y|] eqn:Hrun;
      [|discriminate].
    intros [= ->].
    apply run_captures in Hrun as (w & rest & caps' & Hs & Hm & [= ->]).
    exists EmptyString, w, rest. auto.
  - destruct (run r (String c s) ∅ (fun _ caps => Some caps)) as [y|] eqn:Hrun.
    + intros [= ->].
      apply run_captures in Hrun as (w & rest & caps' & Hs & Hm & [= ->]).
      exists EmptyString, w, rest. auto.
    + intros Hrec. destruct (IH Hrec) as (pre & w & post & -> & Hm).
      exists (String c pre), w, post. auto.
Qed.

(** The match [search] returns starts at the first place of the text at
    which the pattern matches at all. *)
Lemma search_first (r : re) (s : string) (m : gmap nat string) :
  search r s = Some m ->
  exists pre w post, s = pre +:+ w +:+ post /\ matches_with r w ∅ m /\
    forall pre' w' post', s = pre' +:+ w' +:+ post' -> matches r w' ->
      (String.length pre <= String.length pre')%nat.
Proof.
  induction s as [|c s IH]; simpl.
  - destruct (run r EmptyString ∅ (fun _ caps => Some caps)) as [y|] eqn:Hrun;
      [|discriminate].
    intros [= ->].
    apply run_captures in Hrun as (w & rest & caps' & Hs & Hm & [= ->]).
    exists EmptyString, w, rest. repeat split; [exact Hs | exact Hm |].
    intros; simpl; lia.
  - destruct (run r (String c s) ∅ (fun _ caps => Some caps)) as [y|] eqn:Hrun.
    + intros [= ->].
      apply run_captures in Hrun as (w & rest & caps' & Hs & Hm & [= ->]).
      exists EmptyString, w, rest. repeat split; [exact Hs | exact Hm |].
      intros; simpl; lia.
    + intros Hrec. destruct (IH Hrec) as (pre & w & post & -> & Hm & Hfirst).
      exists (String c pre), w, post. repeat split; [exact Hm |].
      intros pre' w' post' Hs Hm'. destruct pre' as [|x pre'].
      * exfalso.
        change (EmptyString +:+ w' +:+ post') with (w' +:+ post') in Hs.
        destruct (run_complete r w' post' ∅ (fun _ caps => Some caps) Hm')
          as [y Hy].
        { intros caps'. eexists; reflexivity. }
        rewrite <- Hs in Hy. congruence.
      * rewrite !cons_app in Hs. injection Hs as _ Hs.
        simpl. apply le_n_S. exact (Hfirst pre' w' post' Hs Hm').
Qed.

(** A literal under [re.IGNORECASE] matches the strings equal to it once
    both are lower-cased, and sets no group. *)
Lemma lit_i_matches (l w : string) (caps caps' : gmap nat string) :
  matches_with (lit_i l) w caps caps' ->
  Str.lower w = Str.lower l /\ caps' = caps.
Proof.
  revert w caps'. induction l as [|c l IH]; intros w caps'; simpl.
  - intros [-> ->]. auto.
  - intros (w1 & w2 & caps1 & -> & [(x & -> & Hx) ->] & H2).
    apply IH in H2 as [Hl ->]. split; [|reflexivity].
    change (String x EmptyString +:+ w2) with (String x w2). simpl.
    rewrite Hl. apply Ascii.eqb_eq in Hx. now rewrite Hx.
Qed.

Lemma lit_i_matches_lower (l w : string) :
  Str.lower w = Str.lower l -> matches (lit_i l) w.
Proof.
  revert w. induction l as [|c l IH]; intros w; simpl.
  - destruct w; [reflexivity | discriminate].
  - destruct w as [|x w]; [discriminate |]. simpl. intros [= Hx Hw].
    exists (String x EmptyString), w. repeat split; [|now apply IH].
    exists x. split; [reflexivity |]. now apply Ascii.eqb_eq.
Qed.

Lemma number_matches (d : string) :
  Parser.is_number d <-> matches digits d.
Proof.
  unfold Parser.is_number, digits. simpl. split.
  - intros [Hne Hall]. split; [exact Hall |].
    destruct d; [congruence | simpl; lia].
  - intros [Hall Hlen]. split; [|exact Hall].
    intros ->. simpl in Hlen. lia.
Qed.

Lemma number_captured (d : string) (caps caps' : gmap nat string) :
  matches_with digits d caps caps' -> Parser.is_number d /\ caps' = caps.
Proof.
  intros Hm. split.
  - apply number_matches. exact (matches_with_matches _ _ _ _ Hm).
  - destruct Hm as (_ & _ & ->). reflexivity.
Qed.

(** The slash pattern: what a match reads and what its groups hold. *)
Lemma slash_captures (w : string) (m : gmap nat string) :
  matches_with Parser.NUMERIC_SLASH_RE w ∅ m ->
  exists d1 ws1 ws2 d2,
    w = d1 +:+ ws1 +:+ "/" +:+ ws2 +:+ d2 /\
    Parser.is_number d1 /\ Parser.is_number d2 /\
    all_chars Str.is_space ws1 = true /\ all_chars Str.is_space ws2 = true /\
    group m 1 = d1 /\ group m 2 = d2.
Proof.
  unfold Parser.NUMERIC_SLASH_RE, spaces0, chr.
  intros (d1 & w2 & caps1 & -> & (c1 & Hd1 & ->) & Hm).
  destruct Hm as (ws1 & w3 & caps2 & -> & (Hws1 & _ & ->) & Hm).
  destruct Hm as (sl & w4 & caps3 & -> & ((c & -> & Hc) & ->) & Hm).
  destruct Hm as (ws2 & d2 & caps4 & -> & (Hws2 & _ & ->) & (c2 & Hd2 & ->)).
  apply number_captured in Hd1 as [Hd1 ->].
  apply number_captured in Hd2 as [Hd2 ->].
  apply Ascii.eqb_eq in Hc as <-.
  exists d1, ws1, ws2, d2. unfold group.
  rewrite lookup_insert_eq, lookup_insert_ne, lookup_insert_eq by discriminate.
  repeat split; try assumption; try apply Hd1; apply Hd2.
Qed.

Lemma slash_form_occurs (text d1 d2 : string) :
  Parser.slash_form text d1 d2 -> occurs Parser.NUMERIC_SLASH_RE text.
Proof.
  intros (pre & ws1 & ws2 & post & -> & Hd1 & Hd2 & Hws1 & Hws2).
  exists pre, (d1 +:+ ws1 +:+ "/" +:+ ws2 +:+ d2), post.
  split; [reflexivity |].
  apply number_matches in Hd1, Hd2.
  exists d1, (ws1 +:+ "/" +:+ ws2 +:+ d2). repeat split; try apply Hd1.
  exists ws1, ("/" +:+ ws2 +:+ d2). repeat split; [exact Hws1 | lia |].
  exists "/", (ws2 +:+ d2). repeat split; [now exists "/"%char |].
  exists ws2, d2. repeat split; [exact Hws2 | lia | apply Hd2 | apply Hd2].
Qed.

(** The labelled pattern, likewise. *)
Lemma labelled_captures (w : string) (m : gmap nat string) :
  matches_with Parser.ENRL_CAP_RE w ∅ m ->
  exists enrl sep1 d1 mid cap sep2 d2,
    w = enrl +:+ sep1 +:+ d1 +:+ mid +:+ cap +:+ sep2 +:+ d2 /\
    Str.lower enrl = "enrl" /\ Str.lower cap = "cap" /\
    Parser.is_number d1 /\ Parser.is_number d2 /\
    all_chars colon_space sep1 = true /\ all_chars dot mid = true /\
    all_chars colon_space sep2 = true /\
    group m 1 = d1 /\ group m 2 = d2.
Proof.
  unfold Parser.ENRL_CAP_RE.
  intros (enrl & w2 & caps1 & -> & Henrl & Hm).
  apply lit_i_matches in Henrl as [Henrl ->].
  destruct Hm as (sep1 & w3 & caps2 & -> & (Hsep1 & _ & ->) & Hm).
  destruct Hm as (d1 & w4 & caps3 & -> & (c1 & Hd1 & ->) & Hm).
  destruct Hm as (mid & w5 & caps4 & -> & (Hmid & _ & ->) & Hm).
  destruct Hm as (cap & w6 & caps5 & -> & Hcap & Hm).
  apply lit_i_matches in Hcap as [Hcap ->].
  destruct Hm as (sep2 & d2 & caps6 & -> & (Hsep2 & _ & ->) & (c2 & Hd2 & ->)).
  apply number_captured in Hd1 as [Hd1 ->].
  apply number_captured in Hd2 as [Hd2 ->].
  exists enrl, sep1, d1, mid, cap, sep2, d2.
  unfold group.
  rewrite lookup_insert_eq, lookup_insert_ne, lookup_insert_eq by discriminate.
  repeat split; try assumption; try apply Hd1; apply Hd2.
Qed.

Lemma labelled_form_occurs (text d1 d2 : string) :
  Parser.labelled_form text d1 d2 -> occurs Parser.ENRL_CAP_RE text.
Proof.
  intros (pre & enrl & sep1 & mid & cap & sep2 & post & -> & Henrl & Hcap &
          Hd1 & Hd2 & Hsep1 & Hmid & Hsep2).
  exists pre, (enrl +:+ sep1 +:+ d1 +:+ mid +:+ cap +:+ sep2 +:+ d2), post.
  split; [reflexivity |].
  apply number_matches in Hd1, Hd2.
  unfold Parser.ENRL_CAP_RE. cbn [matches].
  exists enrl, (sep1 +:+ d1 +:+ mid +:+ cap +:+ sep2 +:+ d2).
  repeat split; [now apply lit_i_matches_lower |].
  exists sep1, (d1 +:+ mid +:+ cap +:+ sep2 +:+ d2).
  repeat split; [exact Hsep1 | lia |].
  exists d1, (mid +:+ cap +:+ sep2 +:+ d2). repeat split; try apply Hd1.
  exists mid, (cap +:+ sep2 +:+ d2). repeat split; [exact Hmid | lia |].
  exists cap, (sep2 +:+ d2). repeat split; [now apply lit_i_matches_lower |].
  exists sep2, d2. repeat split; [exact Hsep2 | lia | apply Hd2 | apply Hd2].
Qed.

End Groups.

(** ** Field extraction *)

Section Extraction.

Import Parser.

Lemma parse_row_element_numbers (tr : Row) :
  (enrolled (parse_row_element tr), capacity (parse_row_element tr)) =
  enrolled_capacity (get_text tr).
Proof.
  unfold parse_row_element. destruct (enrolled_capacity (get_text tr)).
  reflexivity.
Qed.

(** C9. [enrolled] and [capacity] are both present or both absent, and
    when present both are read from one occurrence of one pattern in the
    row text: of the slash form when the text has one anywhere, of the
    "Enrl .. Cap .." form only when the text has no slash form. *)
Theorem enrolled_capacity_one_pattern (tr : Row) :
  let info := parse_row_element tr in
  let text := get_text tr in
  ((enrolled info = PNone /\ capacity info = PNone) \/
   (exists e c : Z, enrolled info = PInt e /\ capacity info = PInt c)) /\
  ((exists d1 d2, slash_form text d1 d2 /\
      enrolled info = PInt (Str.int d1) /\
      capacity info = PInt (Str.int d2)) \/
   ((forall d1 d2, ~ slash_form text d1 d2) /\
    exists d1 d2, labelled_form text d1 d2 /\
      enrolled info = PInt (Str.int d1) /\
      capacity info = PInt (Str.int d2)) \/
   ((forall d1 d2, ~ slash_form text d1 d2) /\
    (forall d1 d2, ~ labelled_form text d1 d2) /\
    enrolled info = PNone /\ capacity info = PNone)).
Proof.
  intros info text.
  pose proof (parse_row_element_numbers tr) as Hnum.
  fold info text in Hnum. unfold enrolled_capacity in Hnum.
  destruct (Re.search NUMERIC_SLASH_RE text) as [m1|] eqn:Hslash.
  - injection Hnum as He Hc. rewrite He, Hc. split; [eauto |]. left.
    apply search_captures in Hslash as (pre & w & post & Htext & Hm).
    apply slash_captures in Hm
      as (d1 & ws1 & ws2 & d2 & -> & Hd1 & Hd2 & Hws1 & Hws2 & -> & ->).
    exists d1, d2. split; [|auto].
    exists pre, ws1, ws2, post. auto 10.
  - assert (Hno : forall d1 d2, ~ slash_form text d1 d2).
    { intros d1 d2 Hform. apply search_none in Hslash.
      exact (Hslash (slash_form_occurs _ _ _ Hform)). }
    destruct (Re.search ENRL_CAP_RE text) as [m2|] eqn:Hlab;
      injection Hnum as He Hc; rewrite He, Hc; (split; [eauto |]); right.
    + left. split; [exact Hno |].
      apply search_captures in Hlab as (pre & w & post & Htext & Hm).
      apply labelled_captures in Hm
        as (enrl & sep1 & d1 & mid & cap & sep2 & d2 & -> & Henrl & Hcap &
            Hd1 & Hd2 & Hsep1 & Hmid & Hsep2 & -> & ->).
      exists d1, d2. split; [|auto].
      exists pre, enrl, sep1, mid, cap, sep2, post. auto 12.
    + right. split; [exact Hno |]. split; [|auto].
      intros d1 d2 Hform. apply search_none in Hlab.
      exact (Hlab (labelled_form_occurs _ _ _ Hform)).
Qed.

(** The two rows of the specification's end-to-end examples. *)
Example parse_row_open :
  parse_row_element row_open =
    {| label := PStr "CS 4349.003"; enrolled := PInt 12; capacity := PInt 30;
       seats_available := PNone; status_text := PStr "open";
       raw := "CS 4349.003 12 / 30 Open" |} /\
  is_section_open (parse_row_element row_open) = Ret true.
Proof. split; vm_compute; reflexivity. Qed.

Example parse_row_full :
  seats_available (parse_row_element row_full) = PInt 0 /\
  status_text (parse_row_element row_full) = PStr "full" /\
  is_section_open (parse_row_element row_full) = Ret false.
Proof. repeat split; vm_compute; reflexivity. Qed.

(** A row with both forms: the slash form wins for both numbers. *)
Example parse_row_both_forms :
  let tr := {| get_text := "Enrl: 7 Cap: 9 (12/13)"; stopbubble := None;
               first_anchor := None; status_span := None |} in
  enrolled (parse_row_element tr) = PInt 12 /\
  capacity (parse_row_element tr) = PInt 13.
Proof. split; vm_compute; reflexivity. Qed.

End Extraction.

(** ** The notification decision *)

Local Open Scope Z_scope.

Section Decision.

Context `{IsoFormat}.

Lemma parsed_truthy (v : pyval) (t : datetime) :
  try_fromisoformat v = Some t -> truthy v = true.
Proof.
  destruct v as [| | |s]; simpl; try discriminate.
  intros Hp. apply negb_true_iff, String.eqb_neq. intros ->.
  rewrite fromisoformat_empty in Hp. discriminate.
Qed.

Lemma parsed_entry_nonempty (entry : Entry) (k : string) (t : datetime) :
  try_fromisoformat (get entry k) = Some t -> entry <> ∅.
Proof.
  intros Hp ->. unfold get in Hp. rewrite lookup_empty in Hp. discriminate.
Qed.

(** [notifier.should_notify] on a label whose entry has a time stamp
    that parses. *)
Lemma notifier_should_notify_parsed now (state : State) label is_open
    (entry : Entry) t :
  state !! label = Some entry ->
  try_fromisoformat (get entry "last_notified") = Some t ->
  Notifier.should_notify now state label is_open =
    if negb (py_eq (get entry "last_status") (Notifier.status_word is_open))
    then Ret true
    else if is_open then
      d ← sub (utcnow now) t;
      if (Notifier.RENOTIFY_AFTER <? d) then Ret true else Ret false
    else Ret false.
Proof.
  intros Hentry Hp. unfold Notifier.should_notify. rewrite Hentry.
  destruct (decide (entry = ∅)) as [He|_].
  - exfalso. exact (parsed_entry_nonempty _ _ _ Hp He).
  - rewrite Hp. reflexivity.
Qed.

(** [runner.should_notify] on a label whose entry has a time stamp that
    parses to an aware value. *)
Lemma runner_should_notify_parsed now label info (state : State) backoff
    (entry : Entry) t :
  state !! label = Some entry ->
  try_fromisoformat (get entry "last_notified") = Some t ->
  aware t = true ->
  Runner.should_notify now label info state backoff =
    if (seconds backoff <=? now - micros t) then
      if negb (py_eq (Parser.status_text info) (get entry "last_status"))
      then Ret true
      else
        dropped ←
          (if negb (is_none (Parser.enrolled info)) &&
              negb (is_none (get entry "enrolled"))
           then py_lt (Parser.enrolled info) (get entry "enrolled")
           else Ret false);
        if (dropped : bool) then Ret true else Ret false
    else Ret false.
Proof.
  intros Hentry Hp Haw. unfold Runner.should_notify. rewrite Hentry.
  rewrite (parsed_truthy _ _ Hp), Hp. unfold sub. simpl. rewrite Haw.
  reflexivity.
Qed.

(** C7. A label without a stored entry, or whose entry has no
    last-notified time stamp, or one that does not parse, is notified: by
    [notifier.should_notify] and by [runner.should_notify] alike. *)
Theorem unknown_or_unparsable_notifies now label is_open info
    (state : State) backoff :
  (state !! label = None \/
   exists entry : Entry, state !! label = Some entry /\
     (get entry "last_notified" = PNone \/
      try_fromisoformat (get entry "last_notified") = None)) ->
  Notifier.should_notify now state label is_open = Ret true /\
  Runner.should_notify now label info state backoff = Ret true.
Proof.
  intros [Hnone | (entry & Hentry & Hlast)].
  - unfold Notifier.should_notify, Runner.should_notify. rewrite Hnone. auto.
  - assert (Hp : try_fromisoformat (get entry "last_notified") = None).
    { destruct Hlast as [-> | Hp]; [reflexivity | exact Hp]. }
    unfold Notifier.should_notify, Runner.should_notify.
    rewrite Hentry, Hp. split.
    + destruct (decide (entry = ∅)); reflexivity.
    + destruct (negb (truthy (get entry "last_notified"))); reflexivity.
Qed.

(** C1, as the code has it.  With a backoff of [exact_backoff] (the
    default 3600 is one), a stored time stamp that parses (to an aware
    value), [enrolled] present, the stored [enrolled] present and the
    former strictly below the latter, [runner.should_notify] answers
    [True] exactly when the backoff has elapsed: inside the cooldown the
    drop of enrollment does not notify. *)
Theorem enrollment_drop_waits_for_backoff now label info (state : State)
    backoff (entry : Entry) t (e e0 : Z) :
  Runner.exact_backoff backoff ->
  state !! label = Some entry ->
  try_fromisoformat (get entry "last_notified") = Some t ->
  aware t = true ->
  Parser.enrolled info = PInt e ->
  get entry "enrolled" = PInt e0 ->
  e < e0 ->
  Runner.should_notify now label info state backoff =
    Ret (seconds backoff <=? now - micros t).
Proof.
  intros _ Hentry Hp Haw He He0 Hlt.
  rewrite (runner_should_notify_parsed _ _ _ _ _ _ _ Hentry Hp Haw).
  rewrite He, He0. simpl.
  destruct (seconds backoff <=? now - micros t); [|reflexivity].
  destruct (negb (py_eq _ _)); [reflexivity |].
  simpl. rewrite (proj2 (Z.ltb_lt e e0) Hlt). reflexivity.
Qed.

(** C2, as the code has it.  With a stored time stamp that parses:
    [notifier.should_notify] answers [True] whenever the stored status is
    not the current open/closed word, whatever the time elapsed;
    [runner.should_notify] does not look at the open/closed
    classification but compares the stored status with the row's
    [status_text], and when the two differ it answers [True] exactly
    when the backoff (one of [exact_backoff]) has elapsed if the time
    stamp is aware, and raises [TypeError] if it is naive. *)
Theorem status_change_notifies now label is_open info (state : State)
    backoff (entry : Entry) t :
  state !! label = Some entry ->
  try_fromisoformat (get entry "last_notified") = Some t ->
  (py_eq (get entry "last_status") (Notifier.status_word is_open) = false ->
   Notifier.should_notify now state label is_open = Ret true) /\
  (py_eq (Parser.status_text info) (get entry "last_status") = false ->
   Runner.exact_backoff backoff ->
   Runner.should_notify now label info state backoff =
     if aware t then Ret (seconds backoff <=? now - micros t)
     else Raise TypeError).
Proof.
  intros Hentry Hp. split.
  - intros Hneq.
    rewrite (notifier_should_notify_parsed _ _ _ _ _ _ Hentry Hp), Hneq.
    reflexivity.
  - intros Hneq _. destruct (aware t) eqn:Haw.
    + rewrite (runner_should_notify_parsed _ _ _ _ _ _ _ Hentry Hp Haw), Hneq.
      simpl. destruct (seconds backoff <=? now - micros t); reflexivity.
    + unfold Runner.should_notify. rewrite Hentry.
      rewrite (parsed_truthy _ _ Hp), Hp. unfold sub. simpl. rewrite Haw.
      reflexivity.
Qed.

(** C3, as the code has it.  With a stored time stamp that parses:
    [notifier.should_notify] (time stamp naive, as it writes them), when
    the stored status is the current open/closed word, answers [False]
    for a closed section and, for an open one, [True] exactly when more
    than [RENOTIFY_AFTER] (one hour) has elapsed;
    [runner.should_notify] (time stamp aware), when enrollment has not
    decreased, goes by the words and not by the classification: it
    answers [False] whatever the time elapsed when the stored status is
    the row's [status_text], and [True] exactly when the backoff (one of
    [exact_backoff]) has elapsed when the two words differ. *)
Theorem unchanged_status_decision now label is_open info (state : State)
    backoff (entry : Entry) t :
  state !! label = Some entry ->
  try_fromisoformat (get entry "last_notified") = Some t ->
  (py_eq (get entry "last_status") (Notifier.status_word is_open) = true ->
   aware t = false ->
   Notifier.should_notify now state label is_open =
     Ret (is_open && (Notifier.RENOTIFY_AFTER <? now - micros t))) /\
  (Runner.no_enrollment_decrease info entry ->
   aware t = true ->
   (py_eq (Parser.status_text info) (get entry "last_status") = true ->
    Runner.should_notify now label info state backoff = Ret false) /\
   (py_eq (Parser.status_text info) (get entry "last_status") = false ->
    Runner.exact_backoff backoff ->
    Runner.should_notify now label info state backoff =
      Ret (seconds backoff <=? now - micros t))).
Proof.
  intros Hentry Hp. split.
  - intros Heq Hnaive.
    rewrite (notifier_should_notify_parsed _ _ _ _ _ _ Hentry Hp), Heq.
    unfold sub. cbn [utcnow aware micros negb]. rewrite Hnaive.
    destruct is_open; [|reflexivity]. cbn [Bool.eqb mbind outcome_bind andb].
    destruct (Notifier.RENOTIFY_AFTER <? now - micros t); reflexivity.
  - intros Hno Haw.
    rewrite (runner_should_notify_parsed _ _ _ _ _ _ _ Hentry Hp Haw).
    split.
    + intros Heq. rewrite Heq.
      simpl. destruct (seconds backoff <=? now - micros t); [|reflexivity].
      destruct Hno as [-> | [-> | (e & e0 & -> & -> & Hle)]]; simpl.
      * reflexivity.
      * rewrite andb_false_r. reflexivity.
      * rewrite (proj2 (Z.ltb_ge e e0) Hle). reflexivity.
    + intros Hneq _. rewrite Hneq.
      simpl. destruct (seconds backoff <=? now - micros t); reflexivity.
Qed.

End Decision.

(** ** The decision on the sample data *)

Section DecisionSamples.

(** The backoff of [main] is one at which the code compares as
    [Runner.should_notify] does. *)
Lemma default_backoff_exact : Runner.exact_backoff 3600.
Proof. split; [discriminate | reflexivity]. Defined.

Lemma unknown_or_unparsable_notifies_damaged :
  try_fromisoformat (get entry_damaged "last_notified") = None /\
  Notifier.should_notify (T0 + minutes 5) (state_of entry_damaged) cs4349 true
    = Ret true /\
  Runner.should_notify (T0 + minutes 5) cs4349
    (Parser.parse_row_element row_open) (state_of entry_damaged) 3600
    = Ret true.
Proof.
  split; [reflexivity |].
  apply unknown_or_unparsable_notifies.
  right. exists entry_damaged. split; [reflexivity | right; reflexivity].
Defined.

(** C1 fails on the code: five minutes after the last notification, with
    the stored status open, the section open and enrollment down from 30
    to 29, [runner.should_notify] answers [False]. *)
Lemma enrollment_drop_inside_cooldown :
  let info := Parser.parse_row_element row_open_29 in
  let now := T0 + minutes 5 in
  get entry_open_30 "last_status" = PStr "open" /\
  Parser.is_section_open info = Ret true /\
  Parser.enrolled info = PInt 29 /\
  get entry_open_30 "enrolled" = PInt 30 /\
  try_fromisoformat (get entry_open_30 "last_notified") = Some (now_utc T0) /\
  now - T0 < seconds 3600 /\
  Runner.should_notify now cs4349 info (state_of entry_open_30) 3600
    = Ret false.
Proof. repeat split; vm_compute; reflexivity. Qed.

Lemma enrollment_drop_waits_for_backoff_61_minutes :
  let info := Parser.parse_row_element row_open_29 in
  Parser.enrolled info = PInt 29 /\
  get entry_open_30 "enrolled" = PInt 30 /\
  Runner.should_notify (T0 + minutes 61) cs4349 info
    (state_of entry_open_30) 3600 = Ret true.
Proof.
  split; [reflexivity | split; [reflexivity |]].
  exact (enrollment_drop_waits_for_backoff (T0 + minutes 61) cs4349
           (Parser.parse_row_element row_open_29) (state_of entry_open_30)
           3600 entry_open_30 (now_utc T0) 29 30 default_backoff_exact
           eq_refl eq_refl eq_refl eq_refl eq_refl eq_refl).
Defined.

(** C2 fails on the code, of [runner.should_notify], in three ways.
    Five minutes after the last notification, with the stored status
    closed and the section now open, it answers [False].  It does not
    see the classification: after the row "29 / 30 Open" has been
    notified and recorded, the row "30 / 30 Open", now classified
    closed, carries the stored word and is not notified, inside the
    cooldown or after it.  And on a time stamp that parses to a naive
    value it raises [TypeError] where the status has changed. *)
Lemma status_change_not_notified :
  (let info := Parser.parse_row_element row_open in
   let now := T0 + minutes 5 in
   get entry_closed_30 "last_status" = PStr "closed" /\
   Parser.is_section_open info = Ret true /\
   Parser.status_text info = PStr "open" /\
   try_fromisoformat (get entry_closed_30 "last_notified")
     = Some (now_utc T0) /\
   Runner.should_notify now cs4349 info (state_of entry_closed_30) 3600
     = Ret false) /\
  (let before := Parser.parse_row_element row_29_of_30 in
   let info := Parser.parse_row_element row_30_of_30 in
   let state := Runner.mark_notified T0 cs4349 before ∅ in
   Parser.is_section_open before = Ret true /\
   Parser.is_section_open info = Ret false /\
   state = state_of entry_open_29 /\
   try_fromisoformat (get entry_open_29 "last_notified")
     = Some (now_utc T0) /\
   Runner.should_notify (T0 + minutes 5) cs4349 info state 3600
     = Ret false /\
   Runner.should_notify (T0 + minutes 61) cs4349 info state 3600
     = Ret false) /\
  (let info := Parser.parse_row_element row_open in
   get entry_naive_closed "last_status" = PStr "closed" /\
   Parser.is_section_open info = Ret true /\
   try_fromisoformat (get entry_naive_closed "last_notified")
     = Some (utcnow T0) /\
   Runner.should_notify (T0 + minutes 61) cs4349 info
     (state_of entry_naive_closed) 3600 = Raise TypeError).
Proof. repeat split; vm_compute; reflexivity. Qed.

Lemma status_change_notifies_closed_to_open :
  Notifier.should_notify (T0 + minutes 5) (state_of entry_naive_closed)
    cs4349 true = Ret true /\
  Runner.should_notify (T0 + minutes 61) cs4349
    (Parser.parse_row_element row_open) (state_of entry_closed_30) 3600
    = Ret true /\
  Runner.should_notify (T0 + minutes 61) cs4349
    (Parser.parse_row_element row_open) (state_of entry_naive_closed) 3600
    = Raise TypeError.
Proof.
  split; [| split].
  - exact (proj1 (status_change_notifies (T0 + minutes 5) cs4349 true
             (Parser.parse_row_element row_open) (state_of entry_naive_closed)
             3600 entry_naive_closed (utcnow T0) eq_refl eq_refl) eq_refl).
  - exact (proj2 (status_change_notifies (T0 + minutes 61) cs4349 true
             (Parser.parse_row_element row_open) (state_of entry_closed_30)
             3600 entry_closed_30 (now_utc T0) eq_refl eq_refl)
             eq_refl default_backoff_exact).
  - exact (proj2 (status_change_notifies (T0 + minutes 61) cs4349 true
             (Parser.parse_row_element row_open) (state_of entry_naive_closed)
             3600 entry_naive_closed (utcnow T0) eq_refl eq_refl)
             eq_refl default_backoff_exact).
Defined.

(** C3 fails on the code, of [runner.should_notify], in two ways.
    Sixty-one minutes after the last notification, with the stored
    status open, the section still open and enrollment unchanged at 12,
    it answers [False].  And a section that is still closed is notified
    again: with the stored status "closed", the row "30 / 30 Full",
    classified closed, and enrollment unchanged at 30, it answers [True]
    once the backoff has elapsed, the word being another. *)
Lemma unchanged_status_not_as_claimed :
  (let info := Parser.parse_row_element row_open in
   let now := T0 + minutes 61 in
   get entry_open_12 "last_status" = PStr "open" /\
   Parser.is_section_open info = Ret true /\
   Parser.status_text info = PStr "open" /\
   Parser.enrolled info = PInt 12 /\
   get entry_open_12 "enrolled" = PInt 12 /\
   try_fromisoformat (get entry_open_12 "last_notified")
     = Some (now_utc T0) /\
   seconds 3600 < now - T0 /\
   Runner.should_notify now cs4349 info (state_of entry_open_12) 3600
     = Ret false) /\
  (let info := Parser.parse_row_element row_full_30 in
   let now := T0 + minutes 61 in
   get entry_closed_30 "last_status" = PStr "closed" /\
   Parser.is_section_open info = Ret false /\
   Parser.status_text info = PStr "full" /\
   Parser.enrolled info = PInt 30 /\
   get entry_closed_30 "enrolled" = PInt 30 /\
   try_fromisoformat (get entry_closed_30 "last_notified")
     = Some (now_utc T0) /\
   seconds 3600 < now - T0 /\
   Runner.should_notify now cs4349 info (state_of entry_closed_30) 3600
     = Ret true).
Proof. repeat split; vm_compute; reflexivity. Qed.

Lemma unchanged_status_decision_still_open :
  Notifier.should_notify (T0 + minutes 61) (state_of entry_naive_open)
    cs4349 true = Ret true /\
  Notifier.should_notify (T0 + minutes 30) (state_of entry_naive_open)
    cs4349 true = Ret false /\
  Runner.should_notify (T0 + minutes 61) cs4349
    (Parser.parse_row_element row_open) (state_of entry_open_12) 3600
    = Ret false /\
  Runner.should_notify (T0 + minutes 61) cs4349
    (Parser.parse_row_element row_full_30) (state_of entry_closed_30) 3600
    = Ret true.
Proof.
  split; [| split; [| split]].
  - exact (proj1 (unchanged_status_decision (T0 + minutes 61) cs4349 true
             (Parser.parse_row_element row_open) (state_of entry_naive_open)
             3600 entry_naive_open (utcnow T0) eq_refl eq_refl)
             eq_refl eq_refl).
  - exact (proj1 (unchanged_status_decision (T0 + minutes 30) cs4349 true
             (Parser.parse_row_element row_open) (state_of entry_naive_open)
             3600 entry_naive_open (utcnow T0) eq_refl eq_refl)
             eq_refl eq_refl).
  - refine (proj1 (proj2 (unchanged_status_decision (T0 + minutes 61)
             cs4349 true (Parser.parse_row_element row_open)
             (state_of entry_open_12) 3600 entry_open_12 (now_utc T0)
             eq_refl eq_refl) _ eq_refl) eq_refl).
    right; right. exists 12, 12. repeat split. lia.
  - refine (proj2 (proj2 (unchanged_status_decision (T0 + minutes 61)
             cs4349 false (Parser.parse_row_element row_full_30)
             (state_of entry_closed_30) 3600 entry_closed_30 (now_utc T0)
             eq_refl eq_refl) _ eq_refl) eq_refl default_backoff_exact).
    right; right. exists 30, 30. repeat split. lia.
Defined.

(** Mixing the two conventions raises: [notifier.should_notify] cannot
    subtract the aware time stamp [runner.mark_notified] has written. *)
Example notifier_raises_on_aware_stamp :
  Notifier.should_notify (T0 + minutes 61) (state_of entry_open_30)
    cs4349 true = Raise TypeError.
Proof. reflexivity. Qed.

End DecisionSamples.

(** ** Recording a notification *)

Section Recording.

Context `{IsoFormat}.

(** X16. [notify_users] returns normally whenever no request raises and
    every answer with status 200 to the request for the DM channel has
    a JSON object for body, whatever the status codes: it has no way to
    report a refused delivery. *)
Lemma notify_users_returns (xs : list Runner.dm_exchange) :
  Forall (fun x =>
    Runner.open_dm x <> Failed /\ Runner.send_dm x <> Failed /\
    (Runner.open_dm x = Http 200 ->
     exists id, Runner.channel_id x = Ret id)) xs ->
  Runner.notify_users xs = Ret tt.
Proof.
  induction 1 as [|x xs (Hopen & Hsend & Hbody) _ IH]; simpl;
    [reflexivity |].
  destruct (Runner.open_dm x) as [code|]; [|congruence].
  destruct (Z.eqb_spec code 200) as [->|Hcode]; [|exact IH].
  destruct (Hbody eq_refl) as [id ->]. simpl.
  destruct (negb (truthy id)); [exact IH |].
  destruct (Runner.send_dm x); [exact IH | congruence].
Qed.

(** C5, as the code has it.  In a turn of [runner.main] on a row of the
    documented shape, [should_notify] itself writes nothing: when it
    answers [False] the stored state is left as it was, status and
    enrollment included; when it answers [True] and the delivery returns,
    [mark_notified] rewrites the three fields of the label's entry
    together. *)
Theorem entry_rewritten_only_on_notify (label : string) (c : Runner.cycle)
    (notified : State) (info : Parser.Info) (go : bool) :
  find (fun r => py_eq (Parser.label r) (PStr label)) (Runner.rows c)
    = Some info ->
  Parser.well_formed info = true ->
  Runner.should_notify (Runner.now_decide c) label info notified 3600
    = Ret go ->
  (go = false -> Runner.check_label label c notified = notified) /\
  (go = true -> Runner.notify_users (Runner.exchanges c) = Ret tt ->
   Runner.check_label label c notified =
     <[label := {[ "last_notified" :=
                     PStr (isoformat (now_utc (Runner.now_mark c)));
                   "last_status" := Parser.status_text info;
                   "enrolled" := Parser.enrolled info ]}]> notified).
Proof.
  intros Hfind Hwf Hgo.
  destruct (is_section_open_returns info Hwf) as [b Hb].
  unfold Runner.check_label. rewrite Hfind, Hb, Hgo.
  cbn [mbind outcome_bind]. split.
  - intros ->. reflexivity.
  - intros -> Hsent. rewrite Hsent. reflexivity.
Qed.

(** X15. The sibling path, [checker_playwright.main]: for an open section the
    state is rewritten only after [notify_open] has returned [True]. *)
Lemma checker_records_only_delivered url resp now_decide now_mark
    (match_ : Parser.Info) (state : State) :
  Parser.is_section_open match_ = Ret true ->
  Notifier.notify_open url resp match_ <> Ret true ->
  Checker.main url resp now_decide now_mark match_ state = state.
Proof.
  intros Hopen Hsent. unfold Checker.main. rewrite Hopen.
  destruct (Checker.label_or_unknown _) as [label|]; [|reflexivity].
  destruct (Notifier.should_notify _ _ _ _) as [[|]|]; try reflexivity.
  destruct (Notifier.notify_open url resp match_) as [[|]|];
    [congruence | reflexivity | reflexivity].
Qed.

(** On the same path a closed section is recorded at once, time stamp
    included, although nothing was notified. *)
Lemma checker_records_closed url resp now_decide now_mark
    (match_ : Parser.Info) (state : State) (label : string) :
  Parser.is_section_open match_ = Ret false ->
  Checker.label_or_unknown (Parser.label match_) = Ret label ->
  Checker.main url resp now_decide now_mark match_ state =
    <[label := {[ "last_status" := PStr "closed";
                  "last_notified" := PStr (isoformat (utcnow now_mark)) ]}]>
      state.
Proof.
  intros Hclosed Hlabel. unfold Checker.main. rewrite Hclosed, Hlabel.
  reflexivity.
Qed.

End Recording.

Section RecordingSamples.

(** C5 fails on the code: inside the cooldown [runner.should_notify]
    answers [False] and the stored entry keeps the status "closed" and
    the enrollment 30, although the row now reads "open" and 29. *)
Lemma no_refresh_without_notification :
  let info := Parser.parse_row_element row_open_29 in
  let c := cycle_of row_open_29 (T0 + minutes 5) [delivered] in
  let after := Runner.check_label cs4349 c (state_of entry_closed_30) in
  Runner.should_notify (T0 + minutes 5) cs4349 info
    (state_of entry_closed_30) 3600 = Ret false /\
  Parser.status_text info = PStr "open" /\
  Parser.enrolled info = PInt 29 /\
  after !! cs4349 = Some entry_closed_30 /\
  get entry_closed_30 "last_status" = PStr "closed" /\
  get entry_closed_30 "enrolled" = PInt 30.
Proof. repeat split; vm_compute; reflexivity. Qed.

Lemma entry_rewritten_only_on_notify_samples :
  Runner.check_label cs4349
    (cycle_of row_open_29 (T0 + minutes 5) [delivered])
    (state_of entry_closed_30) = state_of entry_closed_30 /\
  Runner.check_label cs4349
    (cycle_of row_open_29 (T0 + minutes 61) [delivered])
    (state_of entry_closed_30) =
    <[cs4349 := {[ "last_notified" := PStr "2025-01-15T13:01:00+00:00";
                   "last_status" := PStr "open";
                   "enrolled" := PInt 29 ]}]> (state_of entry_closed_30).
Proof.
  split.
  - exact (proj1 (entry_rewritten_only_on_notify cs4349
             (cycle_of row_open_29 (T0 + minutes 5) [delivered])
             (state_of entry_closed_30)
             (Parser.parse_row_element row_open_29) false
             eq_refl eq_refl eq_refl) eq_refl).
  - exact (proj2 (entry_rewritten_only_on_notify cs4349
             (cycle_of row_open_29 (T0 + minutes 61) [delivered])
             (state_of entry_closed_30)
             (Parser.parse_row_element row_open_29) true
             eq_refl eq_refl eq_refl) eq_refl eq_refl).
Defined.

(** C6, which [runner.main] breaks.  First sight of the label: the
    decision is to notify, Discord refuses the DM of the only subscriber
    (403), [notify_users] returns all the same and the entry is recorded,
    time stamp included; five minutes later, and again after the backoff,
    the decision on the unchanged row is [False], so the failed delivery
    is not tried again. *)
Theorem failed_delivery_is_recorded :
  let info := Parser.parse_row_element row_open in
  let after := Runner.check_label cs4349 (cycle_of row_open T0 [refused]) ∅ in
  Runner.should_notify T0 cs4349 info ∅ 3600 = Ret true /\
  Runner.notify_users [refused] = Ret tt /\
  after = state_of entry_open_12 /\
  Runner.should_notify (T0 + minutes 5) cs4349 info after 3600 = Ret false /\
  Runner.should_notify (T0 + minutes 61) cs4349 info after 3600 = Ret false.
Proof. repeat split; vm_compute; reflexivity. Qed.

(** The same refusal on the path of [checker_playwright.main] leaves the
    state untouched. *)
Example checker_keeps_state_on_refusal :
  Checker.main (PStr "https://discord.com/api/webhooks/1") (Http 403)
    T0 T0 (Parser.parse_row_element row_open) ∅ = ∅.
Proof. vm_compute. reflexivity. Qed.

End RecordingSamples.

(** * More properties *)

(** ** The rest of the parser *)

Section MoreParser.

Import Re Parser Layout.

(** The seat pattern: what a match reads and what its group holds.  The
    second alternative reads nothing the first does not. *)
Lemma seats_captures (w : string) (m : gmap nat string) :
  matches_with SEATS_AVAILABLE_RE w ∅ m ->
  exists d ws seat tail,
    w = d +:+ ws +:+ seat +:+ tail /\
    is_number d /\ ws <> EmptyString /\ all_chars Str.is_space ws = true /\
    Str.lower seat = "seat" /\ group m 1 = d.
Proof.
  unfold SEATS_AVAILABLE_RE.
  intros (d & w2 & caps1 & -> & (c1 & Hd & ->) & Hm).
  destruct Hm as (ws & w3 & caps2 & -> & (Hws & Hlen & ->) & Hm).
  apply number_captured in Hd as [Hd ->].
  assert (Hne : ws <> EmptyString).
  { intros ->. simpl in Hlen. lia. }
  assert (Hseat : forall w caps caps',
    matches_with (Seq (lit_i "seat") (Opt (chr_i "s"))) w caps caps' ->
    exists seat tail, w = seat +:+ tail /\ Str.lower seat = "seat" /\
      caps' = caps).
  { intros w caps caps' (seat & tail & caps3 & -> & Hl & Hopt).
    apply lit_i_matches in Hl as [Hl ->].
    exists seat, tail. repeat split; [exact Hl |].
    destruct Hopt as [[_ ->] | [_ ->]]; reflexivity. }
  destruct Hm as [Hm | (w4 & w5 & caps3 & -> & Hm & Hrest)].
  - apply Hseat in Hm as (seat & tail & -> & Hl & ->).
    exists d, ws, seat, tail. unfold group. rewrite lookup_insert_eq. auto 10.
  - apply Hseat in Hm as (seat & tail & -> & Hl & ->).
    destruct Hrest as (w6 & w7 & caps4 & -> & (_ & _ & ->) & Hav).
    apply lit_i_matches in Hav as [_ ->].
    exists d, ws, seat, (tail +:+ w6 +:+ w7). unfold group.
    rewrite lookup_insert_eq, !app_assoc_str. auto 10.
Qed.

Lemma seats_form_occurs (text d : string) :
  seats_form text d -> occurs SEATS_AVAILABLE_RE text.
Proof.
  intros (pre & ws & seat & post & -> & Hd & Hne & Hws & Hseat).
  exists pre, (d +:+ ws +:+ seat), post. split; [reflexivity |].
  apply number_matches in Hd.
  exists d, (ws +:+ seat). repeat split; try apply Hd.
  exists ws, seat. repeat split; [exact Hws | |].
  - destruct ws; [congruence | simpl; lia].
  - left. exists seat, EmptyString. rewrite app_nil_str.
    repeat split; [now apply lit_i_matches_lower | now left].
Qed.

Lemma seats_form_at_form (text pre d : string) :
  seats_form_at text pre d -> seats_form text d.
Proof.
  intros (ws & seat & post & Htext & Hrest). exists pre, ws, seat, post. auto.
Qed.

Lemma seats_form_at_matches (text pre d : string) :
  seats_form_at text pre d ->
  exists w post, text = pre +:+ w +:+ post /\ matches SEATS_AVAILABLE_RE w.
Proof.
  intros (ws & seat & post & -> & Hd & Hne & Hws & Hseat).
  exists (d +:+ ws +:+ seat), post. split; [reflexivity |].
  apply number_matches in Hd.
  exists d, (ws +:+ seat). repeat split; try apply Hd.
  exists ws, seat. repeat split; [exact Hws | |].
  - destruct ws; [congruence | simpl; lia].
  - left. exists seat, EmptyString. rewrite app_nil_str.
    repeat split; [now apply lit_i_matches_lower | now left].
Qed.

Lemma space_is_no_digit (c : ascii) :
  Str.is_space c = true -> Str.is_digit c = false.
Proof.
  destruct c as [[|] [|] [|] [|] [|] [|] [|] [|]]; vm_compute; congruence.
Qed.

Lemma app_same_length (a b a' b' : string) :
  a +:+ b = a' +:+ b' -> String.length a = String.length a' ->
  a = a' /\ b = b'.
Proof.
  revert a'. induction a as [|x a IH]; intros [|x' a']; simpl;
    try discriminate.
  - auto.
  - rewrite !cons_app. intros [= -> Hab] [= Hlen].
    destruct (IH a' Hab Hlen) as [-> ->]. auto.
Qed.

(** Digits that stand at the same place and are each followed by white
    space are the same digits. *)
Lemma digits_before_space (d d' ws ws' x x' : string) :
  all_chars Str.is_digit d = true -> all_chars Str.is_digit d' = true ->
  ws <> EmptyString -> all_chars Str.is_space ws = true ->
  ws' <> EmptyString -> all_chars Str.is_space ws' = true ->
  d +:+ ws +:+ x = d' +:+ ws' +:+ x' -> d = d'.
Proof.
  intros Hd Hd' Hne Hws Hne' Hws'. revert d' Hd'.
  induction d as [|c d IH]; intros [|c' d'] Hd' Heq.
  - reflexivity.
  - exfalso. destruct ws as [|s ws]; [congruence |].
    change (EmptyString +:+ String s ws +:+ x)
      with (String s (ws +:+ x)) in Heq.
    rewrite cons_app in Heq. injection Heq as -> _.
    simpl in Hws, Hd'. apply andb_true_iff in Hws as [Hs _].
    apply andb_true_iff in Hd' as [Hc _].
    rewrite (space_is_no_digit _ Hs) in Hc. discriminate.
  - exfalso. destruct ws' as [|s ws']; [congruence |].
    change (EmptyString +:+ String s ws' +:+ x')
      with (String s (ws' +:+ x')) in Heq.
    rewrite cons_app in Heq. injection Heq as -> _.
    simpl in Hws', Hd. apply andb_true_iff in Hws' as [Hs _].
    apply andb_true_iff in Hd as [Hc _].
    rewrite (space_is_no_digit _ Hs) in Hc. discriminate.
  - rewrite !cons_app in Heq. injection Heq as -> Heq.
    simpl in Hd, Hd'. apply andb_true_iff in Hd as [_ Hd].
    apply andb_true_iff in Hd' as [_ Hd'].
    f_equal. exact (IH Hd d' Hd' Heq).
Qed.

Lemma seats_form_at_same_place (text pre pre' d d' : string) :
  seats_form_at text pre d -> seats_form_at text pre' d' ->
  String.length pre = String.length pre' -> d = d'.
Proof.
  intros (ws & seat & post & -> & [_ Hd] & Hne & Hws & _)
         (ws' & seat' & post' & Heq & [_ Hd'] & Hne' & Hws' & _) Hlen.
  apply app_same_length in Heq as [_ Heq]; [|exact Hlen].
  rewrite !app_assoc_str in Heq.
  exact (digits_before_space _ _ _ _ _ _ Hd Hd' Hne Hws Hne' Hws' Heq).
Qed.

(** X1. [seats_available] is present exactly when the row text has digits,
    white space and the word "seat" (in any case) somewhere, whether or
    not "available" follows.  Its value is then the number that stands at
    the first such place, the one that starts furthest to the left, and
    the digits of that place are determined by the text; without such a
    place it is [None]. *)
Theorem seats_available_from_text (tr : Row) :
  let info := parse_row_element tr in
  let text := get_text tr in
  (exists d, first_seats_form text d /\
     (forall d', first_seats_form text d' -> d' = d) /\
     seats_available info = PInt (Str.int d)) \/
  ((forall d, ~ seats_form text d) /\ seats_available info = PNone).
Proof.
  intros info text. unfold info, parse_row_element.
  destruct (enrolled_capacity (get_text tr)) as [e c]. cbn [seats_available].
  fold text.
  destruct (search SEATS_AVAILABLE_RE text) as [m|] eqn:Hs.
  - left. apply search_first in Hs as (pre & w & post & Htext & Hm & Hfirst).
    apply seats_captures in Hm
      as (d & ws & seat & tail & -> & Hd & Hne & Hws & Hseat & ->).
    assert (Hat : seats_form_at text pre d).
    { exists ws, seat, (tail +:+ post). rewrite Htext, !app_assoc_str.
      auto 10. }
    assert (Hmin : forall pre' d', seats_form_at text pre' d' ->
              (String.length pre <= String.length pre')%nat).
    { intros pre' d' Hat'.
      destruct (seats_form_at_matches _ _ _ Hat') as (w' & post' & Hw' & Hm').
      exact (Hfirst pre' w' post' Hw' Hm'). }
    exists d. split; [exists pre; auto |]. split; [|reflexivity].
    intros d' (pre' & Hat' & Hmin').
    apply (seats_form_at_same_place text pre' pre d' d Hat' Hat).
    apply Nat.le_antisymm; [exact (Hmin' _ _ Hat) | exact (Hmin _ _ Hat')].
  - right. split; [|reflexivity].
    intros d Hform. apply search_none in Hs.
    exact (Hs (seats_form_occurs _ _ Hform)).
Qed.

(** On "CS 1 10 seats" the count is 10, read where the digits "10"
    begin, and not the 0 that also stands before white space and
    "seats". *)
Example seats_available_reads_whole_number :
  seats_available (parse_row_element row_ten_seats) = PInt 10 /\
  seats_form "CS 1 10 seats" "0".
Proof.
  split; [reflexivity |].
  exists "CS 1 1", " ", "seat", "s". repeat split; discriminate.
Qed.

Lemma int_from_nonneg (d : string) (acc : Z) :
  all_chars Str.is_digit d = true -> 0 <= acc -> 0 <= Str.int_from acc d.
Proof.
  revert acc. induction d as [|c d IH]; intros acc Hall Hacc; simpl in *.
  - exact Hacc.
  - apply andb_true_iff in Hall as [Hc Hall]. apply IH; [exact Hall |].
    unfold Str.is_digit in Hc. apply andb_true_iff in Hc as [Hlo _].
    apply N.leb_le in Hlo. unfold Str.int_acc. lia.
Qed.

Lemma number_nonneg (d : string) : is_number d -> 0 <= Str.int d.
Proof. intros [_ Hall]. apply int_from_nonneg; [exact Hall | lia]. Qed.

(** A seat count is the value of the digits the pattern has read. *)
Lemma seats_available_number (tr : Row) :
  seats_available (parse_row_element tr) = PNone \/
  exists d, is_number d /\
    seats_available (parse_row_element tr) = PInt (Str.int d).
Proof.
  unfold parse_row_element.
  destruct (enrolled_capacity (get_text tr)) as [e c]. cbn [seats_available].
  destruct (search SEATS_AVAILABLE_RE (get_text tr)) as [m|] eqn:Hs;
    [| now left].
  right. apply search_captures in Hs as (pre & w & post & _ & Hm).
  apply seats_captures in Hm as (d & _ & _ & _ & _ & Hd & _ & _ & _ & ->).
  eauto.
Qed.

(** X2. The counts of a parsed row, [enrolled], [capacity] and
    [seats_available], are absent or integers that are not negative. *)
Theorem parsed_counts_not_negative (tr : Row) :
  let info := parse_row_element tr in
  count_ok (enrolled info) = true /\ count_ok (capacity info) = true /\
  count_ok (seats_available info) = true.
Proof.
  intros info.
  assert (Hnum : forall d, is_number d -> count_ok (PInt (Str.int d)) = true).
  { intros d Hd. apply Z.leb_le, number_nonneg, Hd. }
  split; [| split].
  - pose proof (parse_row_element_numbers tr) as Hpair.
    fold info in Hpair. unfold enrolled_capacity in Hpair.
    destruct (search NUMERIC_SLASH_RE (get_text tr)) as [m|] eqn:Hs.
    + injection Hpair as -> _.
      apply search_captures in Hs as (pre & w & post & _ & Hm).
      apply slash_captures in Hm as (d1 & _ & _ & _ & _ & Hd1 & _ & _ & _ & -> & _).
      auto.
    + destruct (search ENRL_CAP_RE (get_text tr)) as [m|] eqn:Hl;
        injection Hpair as -> _; [|reflexivity].
      apply search_captures in Hl as (pre & w & post & _ & Hm).
      apply labelled_captures in Hm
        as (_ & _ & d1 & _ & _ & _ & _ & _ & _ & _ & Hd1 & _ & _ & _ & _ & -> & _).
      auto.
  - pose proof (parse_row_element_numbers tr) as Hpair.
    fold info in Hpair. unfold enrolled_capacity in Hpair.
    destruct (search NUMERIC_SLASH_RE (get_text tr)) as [m|] eqn:Hs.
    + injection Hpair as _ ->.
      apply search_captures in Hs as (pre & w & post & _ & Hm).
      apply slash_captures in Hm as (_ & _ & _ & d2 & _ & _ & Hd2 & _ & _ & _ & ->).
      auto.
    + destruct (search ENRL_CAP_RE (get_text tr)) as [m|] eqn:Hl;
        injection Hpair as _ ->; [|reflexivity].
      apply search_captures in Hl as (pre & w & post & _ & Hm).
      apply labelled_captures in Hm
        as (_ & _ & _ & _ & _ & _ & d2 & _ & _ & _ & _ & Hd2 & _ & _ & _ & _ & ->).
      auto.
  - unfold info.
    destruct (seats_available_number tr) as [-> | (d & Hd & ->)];
      [reflexivity | auto].
Qed.

Lemma lower_char_idem (c : ascii) :
  Str.lower_char (Str.lower_char c) = Str.lower_char c.
Proof. destruct c as [[] [] [] [] [] [] [] []]; reflexivity. Qed.

Lemma lower_idem (s : string) : Str.lower (Str.lower s) = Str.lower s.
Proof.
  induction s as [|c s IH]; simpl; [reflexivity |].
  now rewrite lower_char_idem, IH.
Qed.

Lemma status_from_text_normalized (text : string) :
  let v := status_from_text text in
  v = PNone \/ exists s, v = PStr s /\ s <> EmptyString /\ Str.lower s = s.
Proof.
  unfold status_from_text. cbv zeta.
  repeat match goal with
         | |- context [if ?b then _ else _] => destruct b
         end;
    solve [ now left
          | right; eexists; split; [reflexivity | split; [discriminate | reflexivity]] ].
Qed.

(** X3. The [status_text] of a parsed row is absent or a non-empty
    lower-case string, whether it comes from the status marker or from
    the words of the row. *)
Theorem status_text_normalized (tr : Row) :
  let v := status_text (parse_row_element tr) in
  v = PNone \/ exists s, v = PStr s /\ s <> EmptyString /\ Str.lower s = s.
Proof.
  unfold parse_row_element.
  destruct (enrolled_capacity (get_text tr)) as [e c]. cbn [status_text].
  destruct (status_span tr) as [sp|]; cbn [fmap option_fmap option_map opt_str].
  - destruct (truthy (PStr (Str.lower sp))) eqn:Ht; cbn [negb].
    + right. exists (Str.lower sp). split; [reflexivity |].
      split; [now apply truthy_str | apply lower_idem].
    + apply status_from_text_normalized.
  - apply status_from_text_normalized.
Qed.

(** Rule 2 of [is_section_open]: without [seats_available] and with
    both numbers, the section is open exactly when [enrolled] is below
    [capacity], whatever the status text says. *)
Theorem enrolled_below_capacity_decides (info : Info) (e c : Z) :
  seats_available info = PNone ->
  enrolled info = PInt e -> capacity info = PInt c ->
  is_section_open info = Ret (e <? c).
Proof.
  intros Hs He Hc. unfold is_section_open. rewrite Hs, He, Hc. reflexivity.
Qed.

Lemma enrolled_below_capacity_decides_full_but_open :
  status_text info_full_but_open = PStr "open" /\
  is_section_open info_full_but_open = Ret false.
Proof.
  split; [reflexivity |].
  exact (enrolled_below_capacity_decides info_full_but_open 30 30
           eq_refl eq_refl eq_refl).
Defined.

(** X4. [is_section_open] does not see the case of the letters of
    [status_text]: two records that differ only there, in the case of
    the letters, are classified alike. *)
Theorem status_case_is_ignored (info info' : Info) (s s' : string) :
  seats_available info' = seats_available info ->
  enrolled info' = enrolled info -> capacity info' = capacity info ->
  status_text info = PStr s -> status_text info' = PStr s' ->
  Str.lower s' = Str.lower s ->
  is_section_open info' = is_section_open info.
Proof.
  intros Hs He Hc Ht Ht' Hlow. unfold is_section_open, or_empty_lower.
  rewrite Hs, He, Hc, Ht, Ht'.
  assert (Htr : truthy (PStr s') = truthy (PStr s)).
  { destruct s, s'; try reflexivity; discriminate. }
  rewrite Htr. destruct (truthy (PStr s)); rewrite ?Hlow; reflexivity.
Qed.

Lemma status_case_is_ignored_capitals :
  is_section_open info_open_capitals = Ret true.
Proof.
  exact (status_case_is_ignored info_open_word info_open_capitals
           "open" "OPEN" eq_refl eq_refl eq_refl eq_refl eq_refl eq_refl).
Defined.

(** The searches find nothing exactly when the text has no such layout. *)
Lemma no_slash_form (text : string) :
  search NUMERIC_SLASH_RE text = None <->
  forall d1 d2, ~ slash_form text d1 d2.
Proof.
  split.
  - intros Hs d1 d2 Hform. apply search_none in Hs.
    exact (Hs (slash_form_occurs _ _ _ Hform)).
  - intros Hno. destruct (search NUMERIC_SLASH_RE text) as [m|] eqn:Hs;
      [exfalso | reflexivity].
    apply search_captures in Hs as (pre & w & post & -> & Hm).
    apply slash_captures in Hm
      as (d1 & ws1 & ws2 & d2 & -> & Hd1 & Hd2 & Hws1 & Hws2 & _).
    apply (Hno d1 d2). exists pre, ws1, ws2, post. auto 10.
Qed.

Lemma no_labelled_form (text : string) :
  search ENRL_CAP_RE text = None <->
  forall d1 d2, ~ labelled_form text d1 d2.
Proof.
  split.
  - intros Hs d1 d2 Hform. apply search_none in Hs.
    exact (Hs (labelled_form_occurs _ _ _ Hform)).
  - intros Hno. destruct (search ENRL_CAP_RE text) as [m|] eqn:Hs;
      [exfalso | reflexivity].
    apply search_captures in Hs as (pre & w & post & -> & Hm).
    apply labelled_captures in Hm
      as (enrl & sep1 & d1 & mid & cap & sep2 & d2 & -> & Henrl & Hcap &
          Hd1 & Hd2 & Hsep1 & Hmid & Hsep2 & _).
    apply (Hno d1 d2). exists pre, enrl, sep1, mid, cap, sep2, post. auto 12.
Qed.

Lemma no_seats_form (text : string) :
  search SEATS_AVAILABLE_RE text = None <-> forall d, ~ seats_form text d.
Proof.
  split.
  - intros Hs d Hform. apply search_none in Hs.
    exact (Hs (seats_form_occurs _ _ Hform)).
  - intros Hno. destruct (search SEATS_AVAILABLE_RE text) as [m|] eqn:Hs;
      [exfalso | reflexivity].
    apply search_captures in Hs as (pre & w & post & -> & Hm).
    apply seats_captures in Hm
      as (d & ws & seat & tail & -> & Hd & Hne & Hws & Hseat & _).
    apply (Hno d). exists pre, ws, seat, (tail +:+ post).
    rewrite !app_assoc_str. auto 10.
Qed.

Lemma contains_trans (a b t : string) :
  Str.contains a b = true -> Str.contains b t = true ->
  Str.contains a t = true.
Proof.
  rewrite !contains_app. intros (p1 & q1 & ->) (p2 & q2 & ->).
  exists (p2 +:+ p1), (q1 +:+ q2). now rewrite !app_assoc_str.
Qed.

(** X5. A row without status marker and without numbers (no slash form,
    no "Enrl .. Cap .." form, no seat count) is classified by its words
    alone: open exactly when its text, lower-cased, does not contain
    "full" and contains "open" or "available". *)
Theorem words_only_classification (tr : Row) :
  (status_span tr = None \/ status_span tr = Some EmptyString) ->
  (forall d1 d2, ~ slash_form (get_text tr) d1 d2) ->
  (forall d1 d2, ~ labelled_form (get_text tr) d1 d2) ->
  (forall d, ~ seats_form (get_text tr) d) ->
  let t := Str.lower (get_text tr) in
  is_section_open (parse_row_element tr) =
    Ret (negb (Str.contains "full" t) &&
         (Str.contains "open" t || Str.contains "available" t)).
Proof.
  intros Hspan Hslash Hlab Hseats t.
  apply no_slash_form in Hslash. apply no_labelled_form in Hlab.
  apply no_seats_form in Hseats.
  assert (Hst : status_text (parse_row_element tr) =
                status_from_text (get_text tr)).
  { unfold parse_row_element.
    destruct (enrolled_capacity (get_text tr)). cbn [status_text].
    destruct Hspan as [-> | ->]; reflexivity. }
  assert (Hnone : seats_available (parse_row_element tr) = PNone /\
                  enrolled (parse_row_element tr) = PNone /\
                  capacity (parse_row_element tr) = PNone).
  { pose proof (parse_row_element_numbers tr) as Hpair.
    unfold enrolled_capacity in Hpair. rewrite Hslash, Hlab in Hpair.
    injection Hpair as -> ->. split; [|auto].
    unfold parse_row_element.
    destruct (enrolled_capacity (get_text tr)). cbn [seats_available].
    now rewrite Hseats. }
  destruct Hnone as (Hs & He & Hc).
  unfold is_section_open. rewrite Hs, He, Hc, Hst. cbn [is_none negb andb].
  unfold status_from_text. fold t.
  assert (Hsa : Str.contains "seats available" t = true ->
                Str.contains "available" t = true).
  { apply contains_trans. reflexivity. }
  assert (Hsa' : Str.contains "seat available" t = true ->
                 Str.contains "available" t = true).
  { apply contains_trans. reflexivity. }
  destruct (Str.contains "full" t); [reflexivity |].
  destruct (Str.contains "open" t); [reflexivity |].
  destruct (Str.contains "available" t); [reflexivity |].
  destruct (Str.contains "seats available" t); [now discriminate Hsa |].
  destruct (Str.contains "seat available" t); [now discriminate Hsa' |].
  cbn [orb].
  repeat match goal with
         | |- context [if ?b then _ else _] => destruct b
         end; reflexivity.
Qed.

Lemma words_only_classification_open_was_full :
  Str.contains "open" (Str.lower (get_text row_words)) = true /\
  is_section_open (parse_row_element row_words) = Ret false.
Proof.
  split; [reflexivity |].
  exact (words_only_classification row_words (or_introl eq_refl)
           (proj1 (no_slash_form (get_text row_words)) eq_refl)
           (proj1 (no_labelled_form (get_text row_words)) eq_refl)
           (proj1 (no_seats_form (get_text row_words)) eq_refl)).
Defined.

End MoreParser.

(** ** Deciding after recording *)

Section AfterMark.

Context `{IsoFormat}.

Lemma py_eq_refl (v : pyval) : py_eq v v = true.
Proof.
  destruct v as [| [] | z | s]; simpl; try reflexivity.
  - apply Z.eqb_refl.
  - apply String.eqb_refl.
Qed.

Lemma status_word_eq (b b' : bool) :
  py_eq (Notifier.status_word b) (Notifier.status_word b') = Bool.eqb b b'.
Proof. destruct b, b'; reflexivity. Qed.

(** X7. [notifier.should_notify] right after [notifier.mark_notified] for
    the same label: a changed open/closed status notifies at once; an
    unchanged one notifies only for an open section and only when more
    than [RENOTIFY_AFTER] has passed since the mark. *)
Theorem notifier_decision_after_mark (t0 t1 : Z) (state : State)
    (label : string) (b b' : bool) :
  fromisoformat (isoformat (utcnow t0)) = Some (utcnow t0) ->
  Notifier.should_notify t1 (Notifier.mark_notified t0 state label b) label b'
  = Ret (negb (Bool.eqb b b') || b' && (Notifier.RENOTIFY_AFTER <? t1 - t0)).
Proof.
  intros Hround.
  rewrite (notifier_should_notify_parsed t1 _ label b'
             {[ "last_status" := Notifier.status_word b;
                "last_notified" := PStr (isoformat (utcnow t0)) ]} (utcnow t0)).
  - change (get _ "last_status") with (Notifier.status_word b).
    rewrite status_word_eq. destruct (Bool.eqb b b'); [|reflexivity].
    destruct b'; [|reflexivity]. cbn [negb orb andb].
    unfold sub. cbn [utcnow aware micros Bool.eqb mbind outcome_bind].
    destruct (Notifier.RENOTIFY_AFTER <? t1 - t0); reflexivity.
  - unfold Notifier.mark_notified. apply lookup_insert_eq.
  - exact Hround.
Qed.

(** X8. After [checker_playwright.main] has met the section closed, the
    next decision of [notifier.should_notify] for the open section is to
    notify, whatever the time passed and whatever [isoformat] and
    [fromisoformat] do. *)
Theorem open_after_closed_notifies url resp now_decide now_mark
    (match_ : Parser.Info) (state : State) (label : string) (t1 : Z) :
  Parser.is_section_open match_ = Ret false ->
  Checker.label_or_unknown (Parser.label match_) = Ret label ->
  Notifier.should_notify t1
    (Checker.main url resp now_decide now_mark match_ state) label true
  = Ret true.
Proof.
  intros Hclosed Hlabel.
  rewrite (checker_records_closed url resp now_decide now_mark match_ state
             label Hclosed Hlabel).
  unfold Notifier.should_notify. rewrite lookup_insert_eq.
  destruct (decide (_ = ∅)); [reflexivity |].
  change (get _ "last_status") with (PStr "closed").
  destruct (try_fromisoformat _); reflexivity.
Qed.

Lemma enrolled_not_below_itself (v : pyval) :
  (if negb (is_none v) && negb (is_none v) then py_lt v v else Ret false)
  = Ret false.
Proof.
  destruct v as [| [] | z | s]; simpl; try reflexivity.
  - now rewrite Z.ltb_irrefl.
  - unfold String.ltb. pose proof (String.compare_antisym s s) as Hc.
    destruct (String.compare s s); try discriminate; reflexivity.
Qed.

(** X9. [runner.should_notify] after [runner.mark_notified] for the same
    label, on rows of the documented shape and with a backoff of
    [exact_backoff] (the default 3600 is one): it notifies exactly when
    the backoff has passed since the mark and the row's [status_text]
    differs from the recorded one or its [enrolled] is below the recorded
    one. *)
Theorem runner_decision_after_mark (t0 t1 : Z) (state : State)
    (label : string) (info info' : Parser.Info) (backoff : Z) :
  Runner.exact_backoff backoff ->
  fromisoformat (isoformat (now_utc t0)) = Some (now_utc t0) ->
  Parser.well_formed info = true -> Parser.well_formed info' = true ->
  Runner.should_notify t1 label info'
    (Runner.mark_notified t0 label info state) backoff
  = Ret ((seconds backoff <=? t1 - t0) &&
         (negb (py_eq (Parser.status_text info') (Parser.status_text info)) ||
          Layout.count_below (Parser.enrolled info') (Parser.enrolled info))).
Proof.
  intros _ Hround Hwf Hwf'.
  rewrite (runner_should_notify_parsed t1 label info' _ backoff
             {[ "last_notified" := PStr (isoformat (now_utc t0));
                "last_status" := Parser.status_text info;
                "enrolled" := Parser.enrolled info ]} (now_utc t0)).
  - change (get _ "last_status") with (Parser.status_text info).
    change (get _ "enrolled") with (Parser.enrolled info).
    cbn [now_utc micros].
    destruct (seconds backoff <=? t1 - t0); [|reflexivity].
    destruct (negb (py_eq _ _)); [reflexivity |]. cbn [andb orb].
    unfold Parser.well_formed in Hwf, Hwf'.
    rewrite !andb_true_iff in Hwf, Hwf'.
    destruct Hwf as [[[[_ He] _] _] _], Hwf' as [[[[_ He'] _] _] _].
    destruct (Parser.enrolled info) as [| |e|], (Parser.enrolled info') as [| |e'|];
      try discriminate; simpl; try reflexivity.
    destruct (e' <? e); reflexivity.
  - unfold Runner.mark_notified. apply lookup_insert_eq.
  - exact Hround.
  - reflexivity.
Qed.

End AfterMark.

Section AfterMarkSamples.

Lemma notifier_decision_after_mark_half_hour :
  Notifier.should_notify (T0 + minutes 30)
    (Notifier.mark_notified T0 ∅ cs4349 true) cs4349 true = Ret false /\
  Notifier.should_notify (T0 + minutes 61)
    (Notifier.mark_notified T0 ∅ cs4349 true) cs4349 true = Ret true.
Proof.
  split.
  - exact (notifier_decision_after_mark T0 (T0 + minutes 30) ∅ cs4349
             true true eq_refl).
  - exact (notifier_decision_after_mark T0 (T0 + minutes 61) ∅ cs4349
             true true eq_refl).
Defined.

Lemma open_after_closed_notifies_full_row :
  Notifier.should_notify (T0 + minutes 1)
    (Checker.main (PStr "https://discord.com/api/webhooks/1") (Http 204)
       T0 T0 (Parser.parse_row_element row_full) ∅)
    "CS 4349.004" true = Ret true.
Proof.
  exact (open_after_closed_notifies _ _ T0 T0
           (Parser.parse_row_element row_full) ∅ "CS 4349.004"
           (T0 + minutes 1) eq_refl eq_refl).
Defined.

Lemma runner_decision_after_mark_seat_freed :
  Runner.should_notify (T0 + minutes 61) cs4349
    (Parser.parse_row_element row_open_29)
    (Runner.mark_notified T0 cs4349 info_full_but_open ∅) 3600 = Ret true /\
  Runner.should_notify (T0 + minutes 5) cs4349
    (Parser.parse_row_element row_open_29)
    (Runner.mark_notified T0 cs4349 info_full_but_open ∅) 3600 = Ret false.
Proof.
  split.
  - exact (runner_decision_after_mark T0 (T0 + minutes 61) ∅ cs4349
             info_full_but_open (Parser.parse_row_element row_open_29) 3600
             default_backoff_exact eq_refl eq_refl eq_refl).
  - exact (runner_decision_after_mark T0 (T0 + minutes 5) ∅ cs4349
             info_full_but_open (Parser.parse_row_element row_open_29) 3600
             default_backoff_exact eq_refl eq_refl eq_refl).
Defined.

End AfterMarkSamples.

(** ** The loop of the runner and the checker, as writers of the state *)

Section Writers.

Context `{IsoFormat}.

(** What a turn of the loop of [runner.main] comes to: nothing, or the
    mark after a decision to notify and a delivery that returned. *)
Lemma check_label_cases (label : string) (c : Runner.cycle) (state : State) :
  Runner.check_label label c state = state \/
  exists info,
    find (fun r => py_eq (Parser.label r) (PStr label)) (Runner.rows c)
      = Some info /\
    Runner.should_notify (Runner.now_decide c) label info state 3600
      = Ret true /\
    Runner.notify_users (Runner.exchanges c) = Ret tt /\
    Runner.check_label label c state =
      Runner.mark_notified (Runner.now_mark c) label info state.
Proof.
  unfold Runner.check_label.
  destruct (find _ (Runner.rows c)) as [info|] eqn:Hfind; [|now left].
  destruct (Parser.is_section_open info) as [b|]; [|now left].
  cbn [mbind outcome_bind].
  destruct (Runner.should_notify _ label info state 3600) as [[|]|] eqn:Hgo;
    [| now left | now left].
  cbn [mbind outcome_bind].
  destruct (Runner.notify_users (Runner.exchanges c)) as [[]|] eqn:Hsend;
    [| now left].
  right. exists info. repeat split; assumption || reflexivity.
Qed.

(** X10. A turn of the loop of [runner.main] changes the state only when a
    row carries the label, [should_notify] answered [True] on it and
    [notify_users] returned. *)
Theorem check_label_writes_only_after_notifying (label : string)
    (c : Runner.cycle) (state : State) :
  Runner.check_label label c state <> state ->
  exists info,
    find (fun r => py_eq (Parser.label r) (PStr label)) (Runner.rows c)
      = Some info /\
    Runner.should_notify (Runner.now_decide c) label info state 3600
      = Ret true /\
    Runner.notify_users (Runner.exchanges c) = Ret tt.
Proof.
  intros Hchanged.
  destruct (check_label_cases label c state) as [Hsame | (info & Hf & Hd & Hs & _)];
    [contradiction | eauto].
Qed.

Lemma check_label_other (label l : string) (c : Runner.cycle) (state : State) :
  l <> label -> Runner.check_label label c state !! l = state !! l.
Proof.
  intros Hne.
  destruct (check_label_cases label c state) as [-> | (info & _ & _ & _ & ->)];
    [reflexivity |].
  unfold Runner.mark_notified. now rewrite lookup_insert_ne.
Qed.

Lemma check_label_keeps (label l : string) (c : Runner.cycle) (state : State) :
  is_Some (state !! l) -> is_Some (Runner.check_label label c state !! l).
Proof.
  intros Hin.
  destruct (check_label_cases label c state) as [-> | (info & _ & _ & _ & ->)];
    [exact Hin |].
  unfold Runner.mark_notified. destruct (decide (label = l)) as [-> | Hne].
  - rewrite lookup_insert_eq. eexists; reflexivity.
  - now rewrite lookup_insert_ne.
Qed.

(** X11. [runner.main] never removes an entry of the state, and leaves the
    entries of the labels it does not check as they were. *)
Theorem main_keeps_entries (labels : list (string * Runner.cycle))
    (state : State) (l : string) :
  (is_Some (state !! l) -> is_Some (Runner.main labels state !! l)) /\
  (~ In l (map fst labels) -> Runner.main labels state !! l = state !! l).
Proof.
  revert state. induction labels as [|[label c] labels IH]; intros state.
  - split; [auto | reflexivity].
  - cbn [Runner.main map fst In]. destruct (IH (Runner.check_label label c state))
      as [IHkeep IHother]. split.
    + intros Hin. apply IHkeep, check_label_keeps, Hin.
    + intros Hnot. rewrite IHother by tauto.
      apply check_label_other. intros ->. tauto.
Qed.

(** X12. Once [runner.main] has notified for a label and recorded it, a
    later turn on the same rows leaves the state as it is: while the page
    does not change the label is not notified again, however long the
    time passed. *)
Theorem unchanged_rows_are_not_notified_again (label : string)
    (c1 c2 : Runner.cycle) (state : State) :
  fromisoformat (isoformat (now_utc (Runner.now_mark c1)))
    = Some (now_utc (Runner.now_mark c1)) ->
  Runner.rows c2 = Runner.rows c1 ->
  Runner.check_label label c1 state <> state ->
  Runner.check_label label c2 (Runner.check_label label c1 state)
  = Runner.check_label label c1 state.
Proof.
  intros Hround Hrows Hchanged.
  destruct (check_label_cases label c1 state)
    as [Hsame | (info & Hfind & _ & _ & ->)]; [contradiction |].
  unfold Runner.check_label at 1. rewrite Hrows, Hfind.
  destruct (Parser.is_section_open info) as [b|]; [|reflexivity].
  cbn [mbind outcome_bind].
  rewrite (runner_should_notify_parsed (Runner.now_decide c2) label info _ 3600
             {[ "last_notified" := PStr (isoformat (now_utc (Runner.now_mark c1)));
                "last_status" := Parser.status_text info;
                "enrolled" := Parser.enrolled info ]}
             (now_utc (Runner.now_mark c1)));
    [| unfold Runner.mark_notified; apply lookup_insert_eq
     | exact Hround | reflexivity].
  change (get _ "last_status") with (Parser.status_text info).
  change (get _ "enrolled") with (Parser.enrolled info).
  rewrite py_eq_refl, enrolled_not_below_itself. cbn [negb mbind outcome_bind].
  destruct (seconds 3600 <=? _); reflexivity.
Qed.

(** X13. The two programs cannot share a state: on an entry written by
    [notifier.mark_notified] (naive time stamp) [runner.should_notify]
    raises [TypeError] whatever the row, so the loop of [runner.main]
    never notifies for that label; and on an entry written by
    [runner.mark_notified] (aware time stamp) for a row with status
    "open", [notifier.should_notify] raises [TypeError] for the open
    section. *)
Theorem time_stamps_do_not_mix (t0 t1 : Z) (state : State) (label : string)
    (b : bool) (info info' : Parser.Info) (backoff : Z) (c : Runner.cycle) :
  fromisoformat (isoformat (utcnow t0)) = Some (utcnow t0) ->
  fromisoformat (isoformat (now_utc t0)) = Some (now_utc t0) ->
  Parser.status_text info = PStr "open" ->
  Runner.should_notify t1 label info'
    (Notifier.mark_notified t0 state label b) backoff = Raise TypeError /\
  Runner.check_label label c (Notifier.mark_notified t0 state label b)
    = Notifier.mark_notified t0 state label b /\
  Notifier.should_notify t1 (Runner.mark_notified t0 label info state)
    label true = Raise TypeError.
Proof.
  intros Hnaive Haware Hopen.
  assert (Hraise : forall t i k,
    Runner.should_notify t label i
      (Notifier.mark_notified t0 state label b) k = Raise TypeError).
  { intros t i k. unfold Runner.should_notify, Notifier.mark_notified.
    rewrite lookup_insert_eq.
    change (get _ "last_notified") with (PStr (isoformat (utcnow t0))).
    rewrite (parsed_truthy (PStr (isoformat (utcnow t0))) (utcnow t0) Hnaive).
    cbn [negb try_fromisoformat]. rewrite Hnaive. reflexivity. }
  split; [apply Hraise | split].
  - unfold Runner.check_label.
    destruct (find _ (Runner.rows c)) as [i|]; [|reflexivity].
    destruct (Parser.is_section_open i); [|reflexivity].
    cbn [mbind outcome_bind]. rewrite Hraise. reflexivity.
  - rewrite (notifier_should_notify_parsed t1 _ label true
               {[ "last_notified" := PStr (isoformat (now_utc t0));
                  "last_status" := Parser.status_text info;
                  "enrolled" := Parser.enrolled info ]} (now_utc t0));
      [| unfold Runner.mark_notified; apply lookup_insert_eq | exact Haware].
    change (get _ "last_status") with (Parser.status_text info).
    rewrite Hopen. reflexivity.
Qed.

(** What [checker_playwright.main] comes to: nothing, or a mark under
    the label of the matching row. *)
Lemma checker_main_cases url resp now_decide now_mark
    (match_ : Parser.Info) (state : State) :
  Checker.main url resp now_decide now_mark match_ state = state \/
  exists label b,
    Checker.label_or_unknown (Parser.label match_) = Ret label /\
    Checker.main url resp now_decide now_mark match_ state =
      Notifier.mark_notified now_mark state label b.
Proof.
  unfold Checker.main.
  destruct (Parser.is_section_open match_) as [open_bool|]; [|now left].
  destruct (Checker.label_or_unknown (Parser.label match_)) as [label|];
    [|now left].
  destruct open_bool; [| right; eauto].
  destruct (Notifier.should_notify _ _ _ _) as [[|]|]; try now left.
  destruct (Notifier.notify_open _ _ _) as [[|]|]; try now left.
  right. eauto.
Qed.

(** X14. [checker_playwright.main] writes at most the entry of the label
    of the matching row. *)
Theorem checker_writes_one_label url resp now_decide now_mark
    (match_ : Parser.Info) (state : State) (l : string) :
  Checker.label_or_unknown (Parser.label match_) <> Ret l ->
  Checker.main url resp now_decide now_mark match_ state !! l = state !! l.
Proof.
  intros Hl.
  destruct (checker_main_cases url resp now_decide now_mark match_ state)
    as [-> | (label & b & Hlabel & ->)]; [reflexivity |].
  unfold Notifier.mark_notified. apply lookup_insert_ne.
  intros ->. exact (Hl Hlabel).
Qed.

End Writers.

Section WritersSamples.

Lemma check_label_writes_only_after_notifying_first_sight :
  let c := cycle_of row_open T0 [delivered] in
  Runner.check_label cs4349 c ∅ <> ∅ /\
  exists info,
    find (fun r => py_eq (Parser.label r) (PStr cs4349)) (Runner.rows c)
      = Some info /\
    Runner.should_notify T0 cs4349 info ∅ 3600 = Ret true /\
    Runner.notify_users [delivered] = Ret tt.
Proof.
  assert (Hch : Runner.check_label cs4349 (cycle_of row_open T0 [delivered]) ∅
                <> ∅).
  { vm_compute. discriminate. }
  split; [exact Hch |].
  exact (check_label_writes_only_after_notifying cs4349
           (cycle_of row_open T0 [delivered]) ∅ Hch).
Defined.

Lemma main_keeps_entries_other_label :
  Runner.main [(cs4349, cycle_of row_open T0 [delivered])]
    {[ "CS 4349.004" := entry_closed_30 ]} !! "CS 4349.004"
  = Some entry_closed_30.
Proof.
  refine (proj2 (main_keeps_entries
            [(cs4349, cycle_of row_open T0 [delivered])]
            {[ "CS 4349.004" := entry_closed_30 ]} "CS 4349.004") _).
  simpl. intros [Heq | []]. discriminate.
Defined.

Lemma unchanged_rows_are_not_notified_again_later :
  let c1 := cycle_of row_open T0 [delivered] in
  let c2 := cycle_of row_open (T0 + minutes 61) [delivered] in
  Runner.check_label cs4349 c2 (Runner.check_label cs4349 c1 ∅)
  = Runner.check_label cs4349 c1 ∅.
Proof.
  refine (unchanged_rows_are_not_notified_again cs4349
            (cycle_of row_open T0 [delivered])
            (cycle_of row_open (T0 + minutes 61) [delivered]) ∅
            eq_refl eq_refl _).
  vm_compute. discriminate.
Defined.

Lemma time_stamps_do_not_mix_sample :
  Runner.should_notify (T0 + minutes 61) cs4349
    (Parser.parse_row_element row_open)
    (Notifier.mark_notified T0 ∅ cs4349 false) 3600 = Raise TypeError /\
  Runner.check_label cs4349 (cycle_of row_open (T0 + minutes 61) [delivered])
    (Notifier.mark_notified T0 ∅ cs4349 false)
    = Notifier.mark_notified T0 ∅ cs4349 false /\
  Notifier.should_notify (T0 + minutes 61)
    (Runner.mark_notified T0 cs4349 (Parser.parse_row_element row_open) ∅)
    cs4349 true = Raise TypeError.
Proof.
  exact (time_stamps_do_not_mix T0 (T0 + minutes 61) ∅ cs4349 false
           (Parser.parse_row_element row_open)
           (Parser.parse_row_element row_open) 3600
           (cycle_of row_open (T0 + minutes 61) [delivered])
           eq_refl eq_refl eq_refl).
Defined.

Lemma checker_writes_one_label_other :
  Checker.main (PStr "https://discord.com/api/webhooks/1") (Http 204)
    T0 T0 (Parser.parse_row_element row_open)
    {[ "CS 4349.004" := entry_naive_closed ]} !! "CS 4349.004"
  = Some entry_naive_closed.
Proof.
  refine (checker_writes_one_label _ _ T0 T0
            (Parser.parse_row_element row_open)
            {[ "CS 4349.004" := entry_naive_closed ]} "CS 4349.004" _).
  vm_compute. discriminate.
Defined.

Lemma checker_records_only_delivered_server_error :
  Checker.main (PStr "https://discord.com/api/webhooks/1") (Http 500)
    T0 T0 (Parser.parse_row_element row_open) ∅ = ∅.
Proof.
  refine (checker_records_only_delivered _ (Http 500) T0 T0
            (Parser.parse_row_element row_open) ∅ eq_refl _).
  vm_compute. discriminate.
Defined.

Lemma notify_users_returns_refused :
  Runner.notify_users [refused; delivered] = Ret tt.
Proof.
  apply notify_users_returns.
  repeat constructor; try discriminate.
  intros _. exists (PStr "1001"). reflexivity.
Defined.

(** A body that is not JSON, under a status of 200, ends [notify_users]
    with the exception of [r.json()], and the turn of [main] with the
    state as it was. *)
Example notify_users_raises_on_garbled_body :
  Runner.notify_users [garbled; delivered] = Raise ValueError /\
  Runner.check_label cs4349 (cycle_of row_open T0 [garbled]) ∅ = ∅.
Proof. split; reflexivity. Qed.

End WritersSamples.

(** ** The checker from its arguments *)

Section CliFacts.

Context `{IsoFormat}.
Variable upper : string -> string.

Lemma zeros_length (n : nat) : String.length (Cli.zeros n) = n.
Proof. induction n as [|n IH]; simpl; [reflexivity | now rewrite IH]. Qed.

Lemma int_from_zeros (n : nat) (s : string) :
  Str.int_from 0 (Cli.zeros n +:+ s) = Str.int_from 0 s.
Proof.
  induction n as [|n IH]; [reflexivity |].
  cbn [Cli.zeros]. rewrite cons_app. cbn [Str.int_from]. exact IH.
Qed.

(** [zfill]: the result has [width] characters, or those of the string
    when it is longer, and a string of digits keeps its value, so that
    "3" and "003" name the same section. *)
Lemma zfill_pads (width : nat) (s : string) :
  String.length (Cli.zfill width s) = Nat.max width (String.length s) /\
  (Re.all_chars Str.is_digit s = true ->
   Str.int (Cli.zfill width s) = Str.int s).
Proof.
  unfold Cli.zfill. split.
  - destruct s as [|c s].
    + rewrite zeros_length. simpl. lia.
    + destruct (Ascii.eqb c "+" || Ascii.eqb c "-").
      * cbn [String.length]. rewrite length_app_str, zeros_length.
        cbn [String.length]. lia.
      * rewrite length_app_str, zeros_length. cbn [String.length]. lia.
  - intros Hd. destruct s as [|c s].
    + unfold Str.int. rewrite <- (app_nil_str (Cli.zeros _)).
      apply int_from_zeros.
    + simpl in Hd. apply andb_true_iff in Hd as [Hc _].
      assert (Hsign : Ascii.eqb c "+" || Ascii.eqb c "-" = false).
      { apply orb_false_iff. split; apply Ascii.eqb_neq; intros ->;
          discriminate. }
      rewrite Hsign. apply int_from_zeros.
Qed.

(** The row found by the loop: one of the rows, with a label that starts
    with the target. *)
Lemma find_match_found (target : string) (rows : list Parser.Info)
    (m : Parser.Info) :
  Cli.find_match target rows = Ret (Some m) ->
  In m rows /\
  exists l, Parser.label m = PStr l /\ String.prefix target l = true /\
    Checker.label_or_unknown (Parser.label m) = Ret l.
Proof.
  induction rows as [|info rows IH]; simpl; [discriminate |].
  destruct (truthy (Parser.label info)) eqn:Ht; cbn [negb].
  - destruct (Parser.label info) as [| | |l] eqn:Hl; try discriminate.
    destruct (String.prefix target l) eqn:Hp.
    + intros [= <-]. split; [now left |]. exists l.
      unfold Checker.label_or_unknown. rewrite Hl, Ht. auto.
    + intros Hrec. destruct (IH Hrec) as [Hin Hex]. auto.
  - intros Hrec. destruct (IH Hrec) as [Hin Hex]. auto.
Qed.

(** X18. The row [checker_playwright.main] goes on with is the first row
    of the page whose label is a non-empty string that starts with the
    target, and that string is the key of the state: the fallback
    "unknown" is never used. *)
Theorem match_label_is_never_unknown (target : string)
    (rows : list Parser.Info) (m : Parser.Info) :
  Cli.find_match target rows = Ret (Some m) ->
  exists before after l,
    rows = (before ++ m :: after)%list /\
    Parser.label m = PStr l /\ String.prefix target l = true /\
    Checker.label_or_unknown (Parser.label m) = Ret l /\
    Forall (fun r => truthy (Parser.label r) = false \/
                     exists l', Parser.label r = PStr l' /\
                       String.prefix target l' = false) before.
Proof.
  induction rows as [|info rows IH]; simpl; [discriminate |].
  destruct (truthy (Parser.label info)) eqn:Ht; cbn [negb].
  - destruct (Parser.label info) as [| | |l] eqn:Hl; try discriminate.
    destruct (String.prefix target l) eqn:Hp.
    + intros [= <-]. exists [], rows, l.
      unfold Checker.label_or_unknown. rewrite Hl, Ht. auto 10.
    + intros Hrec.
      destruct (IH Hrec) as (before & after & l0 & -> & H1 & H2 & H3 & H4).
      exists (info :: before), after, l0. repeat split; try assumption.
      constructor; [right; eauto | exact H4].
  - intros Hrec.
    destruct (IH Hrec) as (before & after & l0 & -> & H1 & H2 & H3 & H4).
    exists (info :: before), after, l0. repeat split; try assumption.
    constructor; [now left | exact H4].
Qed.

(** X17. [checker_playwright.main] writes only under a label that starts
    with "SUBJECT NUMBER.SECTION" as built from its arguments: the entry
    of every other label is left as it was, whatever the page holds. *)
Theorem cli_writes_only_target url resp now_decide now_mark
    (prog subject number section : string) (page : list Parser.Row)
    (state : State) (l : string) :
  String.prefix (Cli.target_label upper subject number section) l = false ->
  Cli.main upper url resp now_decide now_mark
    [prog; subject; number; section] page state !! l = state !! l.
Proof.
  intros Hl. unfold Cli.main.
  destruct (Cli.find_match _ _) as [[m|]|] eqn:Hfind; try reflexivity.
  apply find_match_found in Hfind as (_ & l' & _ & Hp & Hlab).
  destruct (checker_main_cases url resp now_decide now_mark m state)
    as [-> | (label & b & Hlabel & ->)]; [reflexivity |].
  unfold Notifier.mark_notified. apply lookup_insert_ne.
  intros ->. congruence.
Qed.

(** Without exactly three arguments after the program name
    [checker_playwright.main] writes nothing. *)
Lemma cli_usage url resp now_decide now_mark (argv : list string)
    (page : list Parser.Row) (state : State) :
  length argv <> 4%nat ->
  Cli.main upper url resp now_decide now_mark argv page state = state.
Proof.
  intros Hlen. unfold Cli.main.
  destruct argv as [|a0 [|a1 [|a2 [|a3 [|a4 rest]]]]]; try reflexivity.
  simpl in Hlen. lia.
Qed.

End CliFacts.

(** ** The embed *)

Section EmbedFacts.

Context `{IsoFormat}.

Lemma substring_length_le (n : nat) (s : string) :
  (String.length (String.substring 0 n s) <= n)%nat.
Proof.
  revert s. induction n as [|n IH]; intros s.
  - destruct s; simpl; lia.
  - destruct s as [|c s]; simpl; [lia |]. specialize (IH s). lia.
Qed.

(** X19. The description of the embed [notify_open] posts is never empty
    and never longer than 403 characters, whatever the row text. *)
Theorem embed_description_bounds (now : Z) (section_info : Parser.Info) :
  let d := Embed.description (Embed.notify_open_embed now section_info) in
  d <> EmptyString /\ (String.length d <= 403)%nat.
Proof.
  cbn [Embed.notify_open_embed Embed.description].
  destruct (truthy (PStr (Embed.snippet (Parser.raw section_info)))) eqn:Ht.
  - split; [now apply truthy_str |].
    unfold Embed.snippet.
    destruct (400 <? String.length (Embed.strip (Parser.raw section_info)))%nat
      eqn:Hlong.
    + rewrite length_app_str.
      pose proof (substring_length_le 400
                    (Embed.strip (Parser.raw section_info))).
      simpl String.length. lia.
    + apply Nat.ltb_ge in Hlong. lia.
  - split; [discriminate | simpl; lia].
Qed.

End EmbedFacts.

Section CliSamples.

Lemma cli_writes_only_target_other_section :
  Cli.target_label sample_upper "cs" "4349" "3" = "CS 4349.003" /\
  Cli.main sample_upper (PStr "https://discord.com/api/webhooks/1") (Http 204)
    T0 T0 ["checker_playwright.py"; "cs"; "4349"; "3"] [row_full; row_open]
    {[ "CS 4349.004" := entry_naive_closed ]} !! "CS 4349.004"
  = Some entry_naive_closed.
Proof.
  split; [reflexivity |].
  exact (cli_writes_only_target sample_upper
           (PStr "https://discord.com/api/webhooks/1") (Http 204) T0 T0
           "checker_playwright.py" "cs" "4349" "3" [row_full; row_open]
           {[ "CS 4349.004" := entry_naive_closed ]} "CS 4349.004" eq_refl).
Defined.

Lemma match_label_is_never_unknown_second_row :
  let rows := Parser.parse_results_fragment [row_full; row_open] in
  Cli.find_match "CS 4349.003" rows = Ret (Some (Parser.parse_row_element row_open))
  /\ Checker.label_or_unknown (Parser.label (Parser.parse_row_element row_open))
     = Ret cs4349.
Proof.
  split; [reflexivity |].
  destruct (match_label_is_never_unknown "CS 4349.003"
              (Parser.parse_results_fragment [row_full; row_open])
              (Parser.parse_row_element row_open) eq_refl)
    as (_ & _ & l & _ & Hl & _ & Hkey & _).
  injection Hl as <-. exact Hkey.
Defined.

(** A whole run: the second row is the section asked for, it is open,
    Discord accepts the post, and the state records it. *)
Example cli_run :
  Cli.main sample_upper (PStr "https://discord.com/api/webhooks/1") (Http 204)
    T0 T0 ["checker_playwright.py"; "cs"; "4349"; "3"] [row_full; row_open] ∅
  = state_of entry_naive_open.
Proof. vm_compute. reflexivity. Qed.

End CliSamples.

(** ** The subscriptions of the bot *)

Local Open Scope list_scope.

Section BotFacts.

Import Bot.
Variable upper : string -> string.

Abbreviation Subs := (list (string * list string)).

Lemma mem_In (x : string) (l : list string) : mem x l = true <-> In x l.
Proof.
  unfold mem. rewrite existsb_exists. split.
  - intros (y & Hin & Heq). apply String.eqb_eq in Heq. now subst.
  - intros Hin. exists x. split; [exact Hin | apply String.eqb_refl].
Qed.

Lemma mem_app (x : string) (l1 l2 : list string) :
  mem x (l1 ++ l2) = mem x l1 || mem x l2.
Proof. unfold mem. apply existsb_app. Qed.

Lemma mem_single (x y : string) : mem x [y] = String.eqb x y.
Proof. unfold mem. simpl. apply orb_false_r. Qed.

Lemma remove_first_last (x : string) (l : list string) :
  mem x l = false -> remove_first x (l ++ [x]) = l.
Proof.
  induction l as [|y l IH]; simpl.
  - now rewrite String.eqb_refl.
  - unfold mem. simpl. intros Hm. apply orb_false_iff in Hm as [Hy Hl].
    rewrite Hy. f_equal. apply IH. exact Hl.
Qed.

Lemma remove_first_mem_other (x y : string) (l : list string) :
  x <> y -> mem y (remove_first x l) = mem y l.
Proof.
  intros Hne. induction l as [|z l IH]; [reflexivity |]. simpl.
  destruct (String.eqb x z) eqn:Hxz.
  - apply String.eqb_eq in Hxz as <-. unfold mem. simpl.
    rewrite (proj2 (String.eqb_neq y x)); [reflexivity | congruence].
  - unfold mem in *. simpl. now rewrite IH.
Qed.

Lemma remove_first_In (x y : string) (l : list string) :
  In y (remove_first x l) -> In y l.
Proof.
  induction l as [|z l IH]; simpl; [tauto |].
  destruct (String.eqb x z); simpl; tauto.
Qed.

Lemma remove_first_NoDup (x : string) (l : list string) :
  NoDup l -> NoDup (remove_first x l) /\ ~ In x (remove_first x l).
Proof.
  induction 1 as [|z l Hz Hl IH]; simpl.
  - split; [constructor | tauto].
  - rewrite list_elem_of_In in Hz. destruct (String.eqb x z) eqn:Hxz.
    + apply String.eqb_eq in Hxz as ->. split; assumption.
    + apply String.eqb_neq in Hxz. destruct IH as [IHn IHx]. split.
      * constructor; [|exact IHn]. rewrite list_elem_of_In. intros Hin.
        apply Hz. eapply remove_first_In, Hin.
      * simpl. intros [-> | Hin]; [congruence | tauto].
Qed.

Lemma remove_first_nil (x : string) (l : list string) :
  mem x l = true -> remove_first x l = [] -> l = [x].
Proof.
  destruct l as [|y l]; [discriminate |]. simpl.
  destruct (String.eqb x y) eqn:Hxy; [|discriminate].
  apply String.eqb_eq in Hxy as ->. now intros _ ->.
Qed.

Section Dict.
Context {V : Type}.
Implicit Types (d : list (string * V)) (k : string) (v : V).

Lemma dict_get_In k v d : dict_get k d = Some v -> In (k, v) d.
Proof.
  induction d as [|[k' v'] d IH]; simpl; [discriminate |].
  destruct (String.eqb k k') eqn:Hk.
  - apply String.eqb_eq in Hk as ->. intros [= ->]. now left.
  - auto.
Qed.

Lemma dict_get_None k d : dict_get k d = None <-> ~ In k (map fst d).
Proof.
  induction d as [|[k' v'] d IH]; simpl; [tauto |].
  destruct (String.eqb k k') eqn:Hk.
  - apply String.eqb_eq in Hk as ->. split; [discriminate | tauto].
  - apply String.eqb_neq in Hk. rewrite IH. split.
    + intros Hn [Heq | Hin]; [congruence | tauto].
    + tauto.
Qed.

Lemma dict_get_set_eq k v d : dict_get k (dict_set k v d) = Some v.
Proof.
  induction d as [|[k' v'] d IH]; simpl.
  - now rewrite String.eqb_refl.
  - destruct (String.eqb k k') eqn:Hk; simpl.
    + now rewrite String.eqb_refl.
    + now rewrite Hk.
Qed.

Lemma dict_get_set_ne k k' v d :
  k <> k' -> dict_get k' (dict_set k v d) = dict_get k' d.
Proof.
  intros Hne. induction d as [|[k2 v2] d IH]; simpl.
  - rewrite (proj2 (String.eqb_neq k' k)); [reflexivity | congruence].
  - destruct (String.eqb k k2) eqn:Hk; simpl.
    + apply String.eqb_eq in Hk as <-.
      rewrite (proj2 (String.eqb_neq k' k)); [reflexivity | congruence].
    + now rewrite IH.
Qed.

Lemma dict_get_pop_ne k k' d :
  k <> k' -> dict_get k' (dict_pop k d) = dict_get k' d.
Proof.
  intros Hne. induction d as [|[k2 v2] d IH]; simpl; [reflexivity |].
  destruct (String.eqb k k2) eqn:Hk; simpl.
  - apply String.eqb_eq in Hk as <-.
    rewrite (proj2 (String.eqb_neq k' k)); [reflexivity | congruence].
  - now rewrite IH.
Qed.

Lemma dict_set_set k v v' d : dict_set k v (dict_set k v' d) = dict_set k v d.
Proof.
  induction d as [|[k' v2] d IH]; simpl.
  - now rewrite String.eqb_refl.
  - destruct (String.eqb k k') eqn:Hk; simpl.
    + now rewrite String.eqb_refl.
    + now rewrite Hk, IH.
Qed.

Lemma dict_set_same k v d : dict_get k d = Some v -> dict_set k v d = d.
Proof.
  induction d as [|[k' v'] d IH]; simpl; [discriminate |].
  destruct (String.eqb k k') eqn:Hk.
  - apply String.eqb_eq in Hk as ->. now intros [= ->].
  - intros Hg. now rewrite IH.
Qed.

Lemma dict_pop_set_absent k v d :
  dict_get k d = None -> dict_pop k (dict_set k v d) = d.
Proof.
  induction d as [|[k' v'] d IH]; simpl.
  - now rewrite String.eqb_refl.
  - destruct (String.eqb k k') eqn:Hk; [discriminate |]. simpl.
    intros Hg. now rewrite Hk, IH.
Qed.

Lemma dict_set_keys k v d :
  map fst (dict_set k v d) =
    match dict_get k d with
    | Some _ => map fst d
    | None => map fst d ++ [k]
    end.
Proof.
  induction d as [|[k' v'] d IH]; simpl; [reflexivity |].
  destruct (String.eqb k k') eqn:Hk; simpl.
  - apply String.eqb_eq in Hk as ->. reflexivity.
  - rewrite IH. destruct (dict_get k d); reflexivity.
Qed.

Lemma dict_set_In k v d p :
  In p (dict_set k v d) -> p = (k, v) \/ In p d.
Proof.
  induction d as [|[k' v'] d IH]; simpl.
  - intros [<- | []]. now left.
  - destruct (String.eqb k k'); simpl.
    + intros [<- | Hin]; auto.
    + intros [<- | Hin]; [auto |]. destruct (IH Hin); auto.
Qed.

Lemma dict_pop_In k d p : In p (dict_pop k d) -> In p d.
Proof.
  induction d as [|[k' v'] d IH]; simpl; [tauto |].
  destruct (String.eqb k k'); simpl; tauto.
Qed.

Lemma dict_pop_keys_NoDup k d :
  NoDup (map fst d) ->
  NoDup (map fst (dict_pop k d)) /\ ~ In k (map fst (dict_pop k d)).
Proof.
  induction d as [|[k' v'] d IH]; simpl.
  - intros _. split; [constructor | tauto].
  - intros Hnd. apply NoDup_cons in Hnd as [Hk' Hnd].
    rewrite list_elem_of_In in Hk'.
    destruct (String.eqb k k') eqn:Hk.
    + apply String.eqb_eq in Hk as ->. split; assumption.
    + apply String.eqb_neq in Hk. destruct (IH Hnd) as [IHn IHk]. simpl. split.
      * constructor; [|exact IHn]. rewrite list_elem_of_In. intros Hin.
        apply Hk'. apply in_map_iff in Hin as (p & <- & Hp).
        apply in_map. eapply dict_pop_In, Hp.
      * intros [-> | Hin]; [congruence | tauto].
Qed.

End Dict.

Lemma tracked_by_set_present (subs : Subs) (label u : string)
    (users users' : list string) :
  dict_get label subs = Some users -> mem u users' = mem u users ->
  tracked_by (dict_set label users' subs) u = tracked_by subs u.
Proof.
  unfold tracked_by. induction subs as [|[k v] subs IH]; simpl; [discriminate |].
  destruct (String.eqb label k) eqn:Hk.
  - apply String.eqb_eq in Hk as ->. intros [= ->] Hm. simpl. rewrite Hm.
    destruct (mem u users); reflexivity.
  - intros Hg Hm. simpl. destruct (mem u v); simpl; now rewrite (IH Hg Hm).
Qed.

Lemma tracked_by_set_absent (subs : Subs) (label u : string)
    (users' : list string) :
  dict_get label subs = None -> mem u users' = false ->
  tracked_by (dict_set label users' subs) u = tracked_by subs u.
Proof.
  unfold tracked_by. induction subs as [|[k v] subs IH]; simpl.
  - intros _ ->. reflexivity.
  - destruct (String.eqb label k) eqn:Hk; [discriminate |].
    intros Hg Hm. simpl. destruct (mem u v); simpl; now rewrite (IH Hg Hm).
Qed.

Lemma tracked_by_pop (subs : Subs) (label u : string) (users : list string) :
  dict_get label subs = Some users -> mem u users = false ->
  tracked_by (dict_pop label subs) u = tracked_by subs u.
Proof.
  unfold tracked_by. induction subs as [|[k v] subs IH]; simpl; [discriminate |].
  destruct (String.eqb label k) eqn:Hk.
  - intros [= ->] Hm. now rewrite Hm.
  - intros Hg Hm. simpl. destruct (mem u v); simpl; now rewrite (IH Hg Hm).
Qed.

Lemma tracked_by_In (subs : Subs) (label u : string) :
  In label (tracked_by subs u) <->
  exists users, In (label, users) subs /\ mem u users = true.
Proof.
  unfold tracked_by. rewrite in_map_iff. split.
  - intros ([k v] & <- & Hin). apply filter_In in Hin as [Hin Hm]. eauto.
  - intros (users & Hin & Hm). exists (label, users).
    split; [reflexivity |]. apply filter_In. auto.
Qed.

(** With the keys of the file all different, the entry of a key is the
    one [dict_get] returns. *)
Lemma dict_In_get {V} (d : list (string * V)) (k : string) (v : V) :
  NoDup (map fst d) -> In (k, v) d -> dict_get k d = Some v.
Proof.
  induction d as [|[k' v'] d IH]; simpl; [tauto |].
  intros Hnd. apply NoDup_cons in Hnd as [Hk' Hnd].
  rewrite list_elem_of_In in Hk'. intros [[= -> ->] | Hin].
  - now rewrite String.eqb_refl.
  - destruct (String.eqb k k') eqn:Hk; [|auto].
    apply String.eqb_eq in Hk as ->. exfalso. apply Hk'.
    apply in_map_iff. now exists (k', v).
Qed.

(** [track] without its detour through the empty list. *)
Lemma track_cases (subs : Subs) (u subject number section : string) :
  let label := label_of upper subject number section in
  track upper subs u subject number section =
    match dict_get label subs with
    | None => (dict_set label [u] subs, NowTracking label)
    | Some users =>
        if mem u users then (subs, AlreadyTracking label)
        else (dict_set label (users ++ [u]) subs, NowTracking label)
    end.
Proof.
  intros label. unfold track. fold label.
  destruct (dict_get label subs) as [users|] eqn:Hg.
  - rewrite Hg. reflexivity.
  - rewrite dict_get_set_eq. cbn [default mem existsb app].
    now rewrite dict_set_set.
Qed.

(** X20. [/track] a second time answers "already tracking" and leaves the
    file as the first [/track] left it. *)
Theorem track_twice (subs : Subs) (u subject number section : string) :
  let subs1 := fst (track upper subs u subject number section) in
  track upper subs1 u subject number section =
    (subs1, AlreadyTracking (label_of upper subject number section)).
Proof.
  cbv zeta. rewrite (track_cases subs).
  set (label := label_of upper subject number section).
  destruct (dict_get label subs) as [users|] eqn:Hg.
  - destruct (mem u users) eqn:Hm; cbn [fst]; rewrite track_cases; fold label.
    + now rewrite Hg, Hm.
    + rewrite dict_get_set_eq, mem_app, mem_single, String.eqb_refl.
      now rewrite orb_true_r.
  - cbn [fst]. rewrite track_cases. fold label.
    rewrite dict_get_set_eq, mem_single, String.eqb_refl. reflexivity.
Qed.

(** X21. [/untrack] right after a [/track] that added the user gives back
    the file as it was before, order of the labels and of the users
    included. *)
Theorem untrack_undoes_track (subs : Subs)
    (u subject number section : string) :
  subs_ok subs ->
  snd (track upper subs u subject number section)
    = NowTracking (label_of upper subject number section) ->
  fst (untrack upper (fst (track upper subs u subject number section))
         u subject number section) = subs.
Proof.
  intros [_ Hok]. rewrite track_cases.
  set (label := label_of upper subject number section).
  destruct (dict_get label subs) as [users|] eqn:Hg.
  - destruct (mem u users) eqn:Hm; cbn [fst snd]; [discriminate |]. intros _.
    unfold untrack. fold label.
    rewrite dict_get_set_eq, mem_app, mem_single, String.eqb_refl, orb_true_r.
    cbn [negb]. rewrite (remove_first_last u users Hm).
    assert (Hne : users <> []).
    { apply dict_get_In, list_elem_of_In in Hg. rewrite Forall_forall in Hok.
      exact (proj1 (Hok _ Hg)). }
    destruct users as [|u0 users]; [congruence |]. cbn [fst].
    rewrite dict_set_set. now apply dict_set_same.
  - cbn [fst snd]. intros _. unfold untrack. fold label.
    rewrite dict_get_set_eq, mem_single, String.eqb_refl. cbn [negb].
    simpl remove_first. rewrite String.eqb_refl. cbn [fst].
    now apply dict_pop_set_absent.
Qed.

Lemma subs_ok_set (subs : Subs) (label : string) (users : list string) :
  subs_ok subs -> users <> [] -> NoDup users ->
  subs_ok (dict_set label users subs).
Proof.
  intros [Hkeys Hall] Hne Hnd. split.
  - rewrite dict_set_keys. destruct (dict_get label subs) eqn:Hg; [exact Hkeys |].
    apply NoDup_app. split; [exact Hkeys | split; [| apply NoDup_singleton]].
    intros k Hk Hin. apply list_elem_of_singleton in Hin as ->.
    apply dict_get_None in Hg. apply Hg. now apply list_elem_of_In.
  - rewrite List.Forall_forall in *. intros p Hp.
    apply dict_set_In in Hp as [-> | Hp]; [split; assumption | auto].
Qed.

Lemma subs_ok_pop (subs : Subs) (label : string) :
  subs_ok subs -> subs_ok (dict_pop label subs).
Proof.
  intros [Hkeys Hall]. split.
  - apply dict_pop_keys_NoDup, Hkeys.
  - rewrite List.Forall_forall in *. intros p Hp.
    apply Hall. eapply dict_pop_In, Hp.
Qed.

Lemma subs_ok_users (subs : Subs) (label : string) (users : list string) :
  subs_ok subs -> dict_get label subs = Some users ->
  users <> [] /\ NoDup users.
Proof.
  intros [_ Hall] Hg. rewrite List.Forall_forall in Hall.
  exact (Hall _ (dict_get_In _ _ _ Hg)).
Qed.

Lemma commands_keep_subs_ok_untrack (subs : Subs)
    (u subject number section : string) :
  subs_ok subs -> subs_ok (fst (untrack upper subs u subject number section)).
Proof.
  intros Hok. unfold untrack.
  set (label := label_of upper subject number section).
  destruct (dict_get label subs) as [users|] eqn:Hg; [|exact Hok].
  destruct (mem u users); cbn [negb]; [|exact Hok].
  destruct (subs_ok_users _ _ _ Hok Hg) as [Hne Hnd].
  destruct (remove_first u users) as [|u0 rest] eqn:Hrem; cbn [fst].
  - apply subs_ok_pop, Hok.
  - apply subs_ok_set; [exact Hok | discriminate |].
    rewrite <- Hrem. apply remove_first_NoDup, Hnd.
Qed.

(** X22. [/track] and [/untrack] keep the file well formed: no label
    twice, and under each label a list of users that is not empty and
    names no user twice. *)
Theorem commands_keep_subs_ok (subs : Subs)
    (u subject number section : string) :
  subs_ok subs ->
  subs_ok (fst (track upper subs u subject number section)) /\
  subs_ok (fst (untrack upper subs u subject number section)).
Proof.
  intros Hok. split; [| now apply commands_keep_subs_ok_untrack].
  - rewrite track_cases.
    set (label := label_of upper subject number section).
    destruct (dict_get label subs) as [users|] eqn:Hg.
    + destruct (mem u users) eqn:Hm; cbn [fst]; [exact Hok |].
      destruct (subs_ok_users _ _ _ Hok Hg) as [Hne Hnd].
      apply subs_ok_set; [exact Hok | now destruct users |].
      apply NoDup_app. split; [exact Hnd | split; [| apply NoDup_singleton]].
      intros x Hx Hin. apply list_elem_of_singleton in Hin as ->.
      apply list_elem_of_In, mem_In in Hx. congruence.
    + cbn [fst]. apply subs_ok_set; [exact Hok | discriminate |].
      apply NoDup_singleton.
Qed.

(** X23. After [/track] the label is among those [/list] shows the user;
    after [/untrack], on a well-formed file, it is not. *)
Theorem list_follows_commands (subs : Subs)
    (u subject number section : string) :
  let label := label_of upper subject number section in
  In label (tracked_by (fst (track upper subs u subject number section)) u) /\
  (subs_ok subs ->
   ~ In label
       (tracked_by (fst (untrack upper subs u subject number section)) u)).
Proof.
  intros label. split.
  - apply tracked_by_In. rewrite track_cases. fold label.
    destruct (dict_get label subs) as [users|] eqn:Hg.
    + destruct (mem u users) eqn:Hm; cbn [fst].
      * exists users. split; [now apply dict_get_In | exact Hm].
      * exists (users ++ [u]). split.
        -- apply dict_get_In, dict_get_set_eq.
        -- now rewrite mem_app, mem_single, String.eqb_refl, orb_true_r.
    + cbn [fst]. exists [u]. split.
      * apply dict_get_In, dict_get_set_eq.
      * now rewrite mem_single, String.eqb_refl.
  - intros Hok Hin. apply tracked_by_In in Hin as (users' & Hin & Hm').
    pose proof (commands_keep_subs_ok_untrack subs u subject number section Hok)
      as [Hkeys' _].
    apply (dict_In_get _ _ _ Hkeys') in Hin. revert Hin Hm'.
    unfold untrack. fold label.
    destruct (dict_get label subs) as [users|] eqn:Hg; cbn [fst].
    + destruct (mem u users) eqn:Hm; cbn [negb fst].
      * destruct (subs_ok_users _ _ _ Hok Hg) as [Hne Hnd].
        destruct (remove_first u users) as [|u0 rest] eqn:Hrem; cbn [fst].
        -- intros Hget _. destruct Hok as [Hkeys _].
           apply dict_get_In in Hget.
           apply (dict_pop_keys_NoDup label subs Hkeys).
           apply in_map_iff. now exists (label, users').
        -- rewrite dict_get_set_eq. intros [= <-] Hm'.
           apply mem_In in Hm'. rewrite <- Hrem in Hm'.
           exact (proj2 (remove_first_NoDup u users Hnd) Hm').
      * rewrite Hg. intros [= <-]. congruence.
    + rewrite Hg. discriminate.
Qed.

(** X24. A command of one user about one label leaves alone what [/list]
    shows every other user, and the list of users of every other
    label. *)
Theorem commands_touch_one_user_and_label (subs : Subs)
    (u u' subject number section l' : string) :
  let label := label_of upper subject number section in
  let tracked := fst (track upper subs u subject number section) in
  let untracked := fst (untrack upper subs u subject number section) in
  (u' <> u ->
   tracked_by tracked u' = tracked_by subs u' /\
   tracked_by untracked u' = tracked_by subs u') /\
  (l' <> label ->
   dict_get l' tracked = dict_get l' subs /\
   dict_get l' untracked = dict_get l' subs).
Proof.
  intros label tracked untracked. subst tracked untracked.
  rewrite track_cases. fold label. unfold untrack. fold label. split.
  - intros Hu. assert (Hmu : mem u' [u] = false).
    { rewrite mem_single. now apply String.eqb_neq. }
    destruct (dict_get label subs) as [users|] eqn:Hg.
    + destruct (mem u users) eqn:Hm; cbn [negb fst].
      * split; [reflexivity |].
        destruct (remove_first u users) as [|u0 rest] eqn:Hrem; cbn [fst].
        -- apply (tracked_by_pop _ _ _ users Hg).
           now rewrite (remove_first_nil u users Hm Hrem).
        -- apply (tracked_by_set_present _ _ _ users _ Hg).
           rewrite <- Hrem. apply remove_first_mem_other. congruence.
      * split; [|reflexivity].
        apply (tracked_by_set_present _ _ _ users _ Hg).
        now rewrite mem_app, Hmu, orb_false_r.
    + cbn [fst]. split; [|reflexivity].
      now apply tracked_by_set_absent.
  - intros Hl. assert (Hl' : label <> l') by congruence.
    destruct (dict_get label subs) as [users|] eqn:Hg.
    + destruct (mem u users); cbn [negb fst].
      * split; [reflexivity |].
        destruct (remove_first u users); cbn [fst].
        -- now apply dict_get_pop_ne.
        -- now apply dict_get_set_ne.
      * split; [now apply dict_get_set_ne | reflexivity].
    + cbn [fst]. split; [now apply dict_get_set_ne | reflexivity].
Qed.

End BotFacts.

Section BotFactsSamples.

Import Bot.

Lemma subs0_ok : subs_ok subs0.
Proof.
  split.
  - repeat (apply NoDup_cons; split;
            [rewrite list_elem_of_In; simpl; intuition discriminate |]).
    apply NoDup_nil_2.
  - repeat constructor; try discriminate;
      rewrite list_elem_of_In; simpl; intuition discriminate.
Qed.

Lemma untrack_undoes_track_new_user :
  fst (track sample_upper subs0 "1002" "cs" "4349" "003") =
    [ ("CS 4349 003", ["1001"; "1002"]); ("MATH 2414 001", ["1001"; "1002"]) ] /\
  fst (untrack sample_upper
         (fst (track sample_upper subs0 "1002" "cs" "4349" "003"))
         "1002" "cs" "4349" "003") = subs0.
Proof.
  split; [reflexivity |].
  exact (untrack_undoes_track sample_upper subs0 "1002" "cs" "4349" "003"
           subs0_ok eq_refl).
Defined.

Lemma commands_keep_subs_ok_last_user :
  fst (untrack sample_upper subs0 "1001" "cs" "4349" "003") =
    [ ("MATH 2414 001", ["1001"; "1002"]) ] /\
  subs_ok (fst (untrack sample_upper subs0 "1001" "cs" "4349" "003")).
Proof.
  split; [reflexivity |].
  exact (proj2 (commands_keep_subs_ok sample_upper subs0
                  "1001" "cs" "4349" "003" subs0_ok)).
Defined.

Lemma list_follows_commands_untracked :
  list_cmd (fst (untrack sample_upper subs0 "1001" "cs" "4349" "003")) "1001"
    = Tracking ["MATH 2414 001"] /\
  ~ In "CS 4349 003"
      (tracked_by (fst (untrack sample_upper subs0 "1001" "cs" "4349" "003"))
         "1001").
Proof.
  split; [reflexivity |].
  exact (proj2 (list_follows_commands sample_upper subs0
                  "1001" "cs" "4349" "003") subs0_ok).
Defined.

Lemma commands_touch_one_user_and_label_other_user :
  tracked_by (fst (untrack sample_upper subs0 "1001" "math" "2414" "001"))
    "1002" = ["MATH 2414 001"] /\
  dict_get "CS 4349 003"
    (fst (untrack sample_upper subs0 "1001" "math" "2414" "001"))
    = Some ["1001"].
Proof.
  split.
  - refine (proj2 (proj1 (commands_touch_one_user_and_label sample_upper subs0
              "1001" "1002" "math" "2414" "001" "CS 4349 003") _)).
    discriminate.
  - refine (proj2 (proj2 (commands_touch_one_user_and_label sample_upper subs0
              "1001" "1002" "math" "2414" "001" "CS 4349 003") _)).
    discriminate.
Defined.

End BotFactsSamples.
